(** * Surface input curve quantity (polyscope)

    A shallow embedding of [src/surface_input_curve_quantity.cpp]: the
    persistence routine [writeToFile], the modal editing loop [userEdit], its
    per-frame callback [userEditCallback] and the [getCurve]/[setCurve] pair,
    together with a model of the curve editor they drive and of the
    cross-mesh transfer behind [getCurve] and [setCurve].

    Conventions.
    - [size_t] is a 64-bit unsigned integer: a value of [N] below [2^64], with
      the wrap-around of [+] and [++] written out.
    - A [std::ofstream] is the string written so far; [<<] appends to it.
      The file is taken to open; a stream that failed to open is not modelled.
    - [Vector3] (three doubles) is kept abstract: the file never computes with
      coordinates, it only stores and prints them.
    - Member functions that mutate [this] or a global become state
      transformers over [World].
    - The main loop is driven by a list of frames; each frame carries the
      events the callback sees and says whether the loop draws the
      quantity before and after the callback. *)

From Stdlib Require Import NArith Arith Bool String List Lia DecimalString.
Import ListNotations.

Set Implicit Arguments.
Local Open Scope string_scope.
Local Open Scope list_scope.

(* ================================================================== *)
(** * Part I. Definitions *)
(* ================================================================== *)

(** ** Machine integers: [size_t] *)

Module SizeT.

Local Open Scope N_scope.

Definition size_t := N.

Definition modulus : N := 2 ^ 64.

(** [SIZE_MAX]; no [std::vector] holds that many elements. *)
Definition SIZE_MAX : N := modulus - 1.

Definition wrap (n : N) : size_t := n mod modulus.

(** [a + b] on [size_t]. *)
Definition add (a b : size_t) : size_t := wrap (a + b).

(** [i++] on [size_t]. *)
Definition incr (i : size_t) : size_t := add i 1.

(** [a % b] on [size_t]; the code only evaluates it with [b] nonzero. *)
Definition rem (a b : size_t) : size_t := a mod b.

(** [v.size()]. *)
Definition size {A} (v : list A) : size_t := wrap (N.of_nat (List.length v)).

(** Decimal rendering, as [operator<<(std::ostream&, size_t)] does. *)
Definition to_string (n : size_t) : string :=
  NilEmpty.string_of_uint (N.to_uint n).

End SizeT.

(** ** Output streams *)

Module Stream.

Definition ostream := string.

(** [std::endl]: a line feed (the flush is not observable in the file). *)
Definition endl : string := String (Ascii.ascii_of_nat 10) EmptyString.

(** [out << s] for a string literal or [std::string]. *)
Definition put (out : ostream) (s : string) : ostream := (out ++ s)%string.

(** [out << n] for a [size_t]. *)
Definition put_size_t (out : ostream) (n : SizeT.size_t) : ostream :=
  put out (SizeT.to_string n).

(** Concatenation of a list of strings. *)
Fixpoint join (l : list string) : string :=
  match l with
  | [] => EmptyString
  | s :: l' => (s ++ join l')%string
  end.

End Stream.

(** ** Mesh handles and curve segments *)

(** Faces and vertices are referred to by index. *)
Definition FaceHandle := nat.
Definition VertexHandle := nat.

(** [FacePtr]: a face handle or the null handle [FacePtr()]. *)
Definition FacePtr := option FaceHandle.
Definition FacePtr_null : FacePtr := None.

Section Segments.

Context {Vector3 : Type}.

(** [CurveSegment]: a straight piece lying in one face.  The source reads
    [startPosition] and [endPosition]. *)
Record CurveSegment := mkSegment {
  face : FaceHandle;
  startPosition : Vector3;
  endPosition : Vector3
}.

End Segments.

Arguments CurveSegment : clear implicits.

(** [std::vector<T>::back()]: the last element; calling it on an empty vector
    is undefined behaviour, which [None] stands for. *)
Fixpoint vector_back {A} (v : list A) : option A :=
  match v with
  | [] => None
  | [x] => Some x
  | _ :: v' => vector_back v'
  end.

(** ** The interface of [MeshEmbeddedCurve] used by the quantity

    The class lives in the geometry library; the quantity only calls these
    members.  [closeCurve] may throw [std::runtime_error]: it returns whether
    it threw together with the curve it leaves behind. *)

Inductive Thrown := Returned | runtime_error.

Module SurfaceCurve.

Class MeshEmbeddedCurveAPI (Vector3 Curve : Type) := {
  getCurveSegments : Curve -> list (CurveSegment Vector3);
  isClosed : Curve -> bool;
  tryExtendBack : FaceHandle -> Vector3 -> Curve -> Curve;
  removeLastEndpoint : Curve -> Curve;
  closeCurve : Curve -> Thrown * Curve;
  clearCurve : Curve -> Curve
}.

End SurfaceCurve.

Import SurfaceCurve.

(** ** [writeToFile] *)

Inductive WriteOutcome :=
| NothingWritten
    (** the file dialog was cancelled: the function returns at once *)
| Written (console : string) (filename : string) (contents : string)
    (** the line sent to [cout], the file name and the file's contents *)
| UndefinedBehaviour
    (** [back()] was called on an empty vector *).

Section WriteToFile.

Context {Vector3 Curve : Type} `{API : MeshEmbeddedCurveAPI Vector3 Curve}.

(** [operator<<(std::ostream&, Vector3)], from the geometry library. *)
Variable printVector3 : Vector3 -> string.

Definition put_Vector3 (out : Stream.ostream) (v : Vector3) : Stream.ostream :=
  Stream.put out (printVector3 v).

(** The state carried through a [for (CurveSegment& s : segments)] loop:
    the stream, [segInds] and the counter [i]. *)
Definition LoopState : Type :=
  (Stream.ostream * list (SizeT.size_t * SizeT.size_t) * SizeT.size_t)%type.

(** Body of the loop of the closed branch. *)
Definition closedBody (segments : list (CurveSegment Vector3))
           (st : LoopState) (s : CurveSegment Vector3) : LoopState :=
  let '(outFile, segInds, i) := st in
  let outFile := Stream.put (put_Vector3 outFile (startPosition s)) Stream.endl in
  let segInds :=
    segInds ++ [(i, SizeT.rem (SizeT.add i 1%N) (SizeT.size segments))] in
  (outFile, segInds, SizeT.incr i).

(** Body of the loop of the open branch. *)
Definition openBody (st : LoopState) (s : CurveSegment Vector3) : LoopState :=
  let '(outFile, segInds, i) := st in
  let outFile := Stream.put (put_Vector3 outFile (startPosition s)) Stream.endl in
  let segInds := segInds ++ [(i, SizeT.add i 1%N)] in
  (outFile, segInds, SizeT.incr i).

(** The final loop, [for (auto s : segInds)]. *)
Definition indexBody (outFile : Stream.ostream)
           (s : SizeT.size_t * SizeT.size_t) : Stream.ostream :=
  Stream.put
    (Stream.put_size_t (Stream.put (Stream.put_size_t outFile (fst s)) ",") (snd s))
    Stream.endl.

Definition writeIndices (outFile : Stream.ostream)
           (segInds : list (SizeT.size_t * SizeT.size_t)) : Stream.ostream :=
  let outFile :=
    Stream.put (Stream.put_size_t (Stream.put outFile "# lines: ") (SizeT.size segInds))
               Stream.endl in
  fold_left indexBody segInds outFile.

(** [writeToFile(filename)] for the quantity called [name] holding [curve];
    [prompt] is what [promptForFilename()] answers if it is asked. *)
Definition writeToFile (name : string) (curve : Curve)
           (prompt : string) (filename : string) : WriteOutcome :=
  let filename := if String.eqb filename "" then prompt else filename in
  if String.eqb filename "" then NothingWritten
  else
    let console :=
      Stream.put (Stream.put (Stream.put (Stream.put (Stream.put ""
        "Writing curve ") name) " to file ") filename) Stream.endl in
    let segments := getCurveSegments curve in
    let outFile : Stream.ostream := EmptyString in
    if isClosed curve then
      let outFile :=
        Stream.put (Stream.put_size_t (Stream.put outFile "# points: ")
                                      (SizeT.size segments)) Stream.endl in
      let '(outFile, segInds, _) :=
        fold_left (closedBody segments) segments (outFile, [], 0%N) in
      Written console filename (writeIndices outFile segInds)
    else
      let outFile :=
        Stream.put (Stream.put_size_t (Stream.put outFile "# points: ")
                                      (SizeT.add (SizeT.size segments) 1%N)) Stream.endl in
      let '(outFile, segInds, _) :=
        fold_left openBody segments (outFile, [], 0%N) in
      match vector_back segments with
      | None => UndefinedBehaviour
      | Some last =>
          let outFile := Stream.put (put_Vector3 outFile (endPosition last)) Stream.endl in
          Written console filename (writeIndices outFile segInds)
      end.

End WriteToFile.

(** ** The curve editor

    The members of [MeshEmbeddedCurve] are implemented in the geometry
    library, outside this file's source.  The module below models them from
    the design document: a segment store with an explicit closed flag, and an
    editor over the states Empty, Open and Closed. *)

Module Editor.

Inductive EditError :=
| DisconnectedPick
| InvalidClosure
| NotFound
| TransferUnresolvable.

(** What an editing call reports: it did its work, it silently did nothing,
    or it failed with an error. *)
Inductive Outcome :=
| Success
| SilentNoOp
| Failure (e : EditError).

Inductive CurveState := Empty | Open | Closed.

Section Model.

Context {Vector3 : Type}.

(** Modelled from the spec: [BarycentricPoint], a face and barycentric
    coordinates in it. *)
Record BarycentricPoint := mkPoint {
  pointFace : FaceHandle;
  coords : Vector3
}.

(** Modelled from the spec: the Mesh Geometry Provider (an external
    collaborator), reduced to the queries the editor makes: the three
    vertices of a triangular face, the 3D position of a barycentric
    point, and whether the straight segment between two located points
    would cross a third face. *)
Record MeshGeometry := mkGeometry {
  faceVertices : FaceHandle -> VertexHandle * VertexHandle * VertexHandle;
  resolve : FaceHandle -> Vector3 -> Vector3;
  crossesThirdFace : FaceHandle -> Vector3 -> FaceHandle -> Vector3 -> bool
}.

Definition vertexList (g : MeshGeometry) (f : FaceHandle) : list VertexHandle :=
  let '(a, b, c) := faceVertices g f in [a; b; c].

(** Modelled from the spec: the face adjacency query.  Two faces are
    adjacent when they share an edge or a vertex; sharing an edge is sharing
    its two vertices. *)
Definition adjacent (g : MeshGeometry) (f1 f2 : FaceHandle) : bool :=
  existsb (fun v => existsb (Nat.eqb v) (vertexList g f2)) (vertexList g f1).

(** Modelled from the spec: the Curve Segment Store, a pure container of
    the ordered segments with the explicit closed flag. *)
Record Store := mkStore {
  segments : list (CurveSegment Vector3);
  closedFlag : bool
}.

Definition append (s : CurveSegment Vector3) (st : Store) : Store :=
  mkStore (segments st ++ [s]) (closedFlag st).

Definition removeLast (st : Store) : Store :=
  mkStore (removelast (segments st)) (closedFlag st).

Definition clear (st : Store) : Store := mkStore [] false.

Definition isEmpty (st : Store) : bool :=
  match segments st with [] => true | _ :: _ => false end.

(** Modelled from the spec: [MeshEmbeddedCurve], the store together with
    the anchor, the first picked point with the face it was located in.
    The anchor is pending while no segment has been emitted; once segments
    exist it is kept as the face context of the first start point. *)
Record MeshEmbeddedCurve := mkCurve {
  pendingAnchor : option BarycentricPoint;
  store : Store
}.

Definition getCurveSegments (c : MeshEmbeddedCurve) : list (CurveSegment Vector3) :=
  segments (store c).

Definition isClosed (c : MeshEmbeddedCurve) : bool := closedFlag (store c).

Definition emptyCurve : MeshEmbeddedCurve := mkCurve None (mkStore [] false).

(** Whether the anchor is pending: the curve has its first point and no
    segment yet. *)
Definition hasAnchor (c : MeshEmbeddedCurve) : bool :=
  match pendingAnchor c with Some _ => isEmpty (store c) | None => false end.

(** Modelled from the spec: the face context of the first start point, the
    face in which the first picked point was located. *)
Definition firstStartFace (c : MeshEmbeddedCurve) : option FaceHandle :=
  option_map pointFace (pendingAnchor c).

(** Modelled from the spec: the face context of the last end point, the
    face in which the last picked point was located; segments are filed
    under it. *)
Definition lastEndFace (c : MeshEmbeddedCurve) : option FaceHandle :=
  option_map (@face _) (vector_back (getCurveSegments c)).

(** Modelled from the spec: the state of the editor's state machine.  A
    curve that only has its anchor is Open (the started sub-state). *)
Definition state (c : MeshEmbeddedCurve) : CurveState :=
  if isClosed c then Closed
  else if isEmpty (store c) && negb (hasAnchor c) then Empty
  else Open.

(** Modelled from the spec: the invariant the editor maintains.  A closed
    curve has segments, and the anchor is pending only while there is no
    segment. *)
Definition wellFormed (c : MeshEmbeddedCurve) : bool :=
  (negb (isClosed c) || negb (isEmpty (store c)))
  && (negb (hasAnchor c) || (isEmpty (store c) && negb (isClosed c))).

(** Modelled from the spec: the back endpoint, as the face holding it and
    its 3D position.  It is the end of the last segment, or the anchor when
    no segment exists. *)
Definition backEndpoint (g : MeshGeometry) (c : MeshEmbeddedCurve)
  : option (FaceHandle * Vector3) :=
  match vector_back (getCurveSegments c) with
  | Some s => Some (face s, endPosition s)
  | None =>
      match pendingAnchor c with
      | Some a => Some (pointFace a, resolve g (pointFace a) (coords a))
      | None => None
      end
  end.

(** Modelled from the spec: [tryExtendBack(candidateFace, candidatePoint)].
    On a Closed curve it silently does nothing.  On an Empty curve it
    records the anchor and emits no segment.  Otherwise it emits one
    segment from the back endpoint to the candidate when the candidate's
    face is the back endpoint's face, or is adjacent to it and the
    straight segment crosses no third face; else it fails with
    [DisconnectedPick] and leaves the curve as it was.  The emitted
    segment is filed under the candidate's face, the face of its end
    point; the anchor stays as the face context of the first start point. *)
Definition tryExtendBack (g : MeshGeometry) (candidateFace : FaceHandle)
           (candidatePoint : Vector3) (c : MeshEmbeddedCurve)
  : Outcome * MeshEmbeddedCurve :=
  if isClosed c then (SilentNoOp, c)
  else
    match backEndpoint g c with
    | None =>
        (Success, mkCurve (Some (mkPoint candidateFace candidatePoint)) (store c))
    | Some (backFace, backPosition) =>
        let target := resolve g candidateFace candidatePoint in
        let emitted := mkSegment candidateFace backPosition target in
        if Nat.eqb candidateFace backFace then
          (Success, mkCurve (pendingAnchor c) (append emitted (store c)))
        else if adjacent g candidateFace backFace
                && negb (crossesThirdFace g backFace backPosition
                                          candidateFace target) then
          (Success, mkCurve (pendingAnchor c) (append emitted (store c)))
        else (Failure DisconnectedPick, c)
    end.

(** Modelled from the spec: [removeLastEndpoint()].  It pops the most
    recent segment, or the pending anchor if only one point exists, and
    does nothing on an Empty curve.  If the removal empties the sequence
    the curve becomes Empty, so the anchor goes with the last segment.  The
    curve it leaves is never Closed: popping the closing segment of a
    Closed curve reopens it. *)
Definition removeLastEndpoint (c : MeshEmbeddedCurve) : MeshEmbeddedCurve :=
  match getCurveSegments c with
  | [] => mkCurve None (store c)
  | _ :: _ =>
      let remaining := removeLast (store c) in
      mkCurve (if isEmpty remaining then None else pendingAnchor c)
              (mkStore (segments remaining) false)
  end.

(** Modelled from the spec: [closeCurve()].  It fails with
    [InvalidClosure] when the curve is already Closed, when it has no
    full segment, or when the first start point and the last end point do
    not lie in a common face; otherwise it appends the closing segment,
    from the last end point to the first start point, and marks the curve
    closed.  The two points lie in a common face when the face the first
    start point was located in ([firstStartFace]) is the face the last end
    point was located in ([lastEndFace]); the closing segment lies in it. *)
Definition closeCurve (c : MeshEmbeddedCurve) : Outcome * MeshEmbeddedCurve :=
  if isClosed c then (Failure InvalidClosure, c)
  else
    match getCurveSegments c with
    | [] => (Failure InvalidClosure, c)
    | first :: rest =>
        let final := List.last rest first in
        match firstStartFace c, lastEndFace c with
        | Some startFace, Some endFace =>
            if Nat.eqb startFace endFace then
              let closing :=
                mkSegment endFace (endPosition final) (startPosition first) in
              (Success,
               mkCurve (pendingAnchor c)
                       (mkStore (segments (append closing (store c))) true))
            else (Failure InvalidClosure, c)
        | _, _ => (Failure InvalidClosure, c)
        end
    end.

(** Modelled from the spec: [clearCurve()], the unconditional reset. *)
Definition clearCurve (c : MeshEmbeddedCurve) : MeshEmbeddedCurve :=
  mkCurve None (clear (store c)).

(** The four editing operations, and the curves an editing session can
    reach from the empty curve by applying them in turn. *)
Inductive Operation :=
| ExtendBack (candidateFace : FaceHandle) (candidatePoint : Vector3)
| RemoveLast
| Close
| Clear.

Definition applyOperation (g : MeshGeometry) (c : MeshEmbeddedCurve)
           (op : Operation) : MeshEmbeddedCurve :=
  match op with
  | ExtendBack f p => snd (tryExtendBack g f p c)
  | RemoveLast => removeLastEndpoint c
  | Close => snd (closeCurve c)
  | Clear => clearCurve c
  end.

Definition session (g : MeshGeometry) (ops : list Operation) : MeshEmbeddedCurve :=
  fold_left (applyOperation g) ops emptyCurve.

(** Consecutive segments share an endpoint. *)
Fixpoint chained (l : list (CurveSegment Vector3)) : Prop :=
  match l with
  | [] => True
  | s :: l' =>
      match l' with
      | [] => True
      | t :: _ => endPosition s = startPosition t
      end /\ chained l'
  end.

(** The first segment starts at the position of the anchor. *)
Definition startsAtAnchor (g : MeshGeometry) (c : MeshEmbeddedCurve) : Prop :=
  forall first rest,
    getCurveSegments c = first :: rest ->
    exists a,
      pendingAnchor c = Some a
      /\ startPosition first = resolve g (pointFace a) (coords a).

(** The editor seen through the interface the quantity calls.  The void
    [tryExtendBack] drops the outcome; a failing [closeCurve] throws. *)
Definition api (g : MeshGeometry) : MeshEmbeddedCurveAPI Vector3 MeshEmbeddedCurve :=
  {| SurfaceCurve.getCurveSegments := getCurveSegments;
     SurfaceCurve.isClosed := isClosed;
     SurfaceCurve.tryExtendBack := fun f b c => snd (tryExtendBack g f b c);
     SurfaceCurve.removeLastEndpoint := removeLastEndpoint;
     SurfaceCurve.closeCurve := fun c =>
       match closeCurve c with
       | (Failure _, c') => (runtime_error, c')
       | (_, c') => (Returned, c')
       end;
     SurfaceCurve.clearCurve := clearCurve |}.

End Model.

Arguments BarycentricPoint : clear implicits.
Arguments MeshGeometry : clear implicits.
Arguments Store : clear implicits.
Arguments MeshEmbeddedCurve : clear implicits.
Arguments Operation : clear implicits.

End Editor.

(** ** The ImGui context stack

    ImGui is an external library; these follow its documented behaviour.
    A context pointer is [None] (the null pointer) or the identity of a
    context. *)

Module ImGui.

Definition ImGuiContextPtr := option nat.

Record State := mkState {
  current : ImGuiContextPtr;
  live : list nat
}.

Definition ptr_eqb (a b : ImGuiContextPtr) : bool :=
  match a, b with
  | Some x, Some y => Nat.eqb x y
  | None, None => true
  | _, _ => false
  end.

Definition GetCurrentContext (s : State) : ImGuiContextPtr := current s.

Definition SetCurrentContext (p : ImGuiContextPtr) (s : State) : State :=
  mkState p (live s).

(** A newly allocated context differs from every context in use. *)
Definition fresh (s : State) : nat :=
  S (list_max (match current s with Some c => c :: live s | None => live s end)).

(** [CreateContext]: allocates a context and makes it current only if no
    context was current. *)
Definition CreateContext (s : State) : ImGuiContextPtr * State :=
  let c := fresh s in
  (Some c,
   mkState (match current s with None => Some c | Some o => Some o end)
           (c :: live s)).

(** [DestroyContext(ctx)]: a null argument means the current context; if
    the destroyed context is the current one, no context is current
    afterwards. *)
Definition DestroyContext (p : ImGuiContextPtr) (s : State) : State :=
  let p := match p with None => current s | Some _ => p end in
  mkState (if ptr_eqb (current s) p then None else current s)
          (match p with
           | Some c => filter (fun x => negb (Nat.eqb x c)) (live s)
           | None => live s
           end).

End ImGui.

(** ** The quantity and the globals it touches *)

Section Quantity.

Context {Vector3 Curve : Type} `{API : MeshEmbeddedCurveAPI Vector3 Curve}.

(** The members of [MeshEmbeddedCurve] invoked so far, oldest first. *)
Inductive CurveCall :=
| Call_tryExtendBack (f : FaceHandle) (bCoord : Vector3)
| Call_removeLastEndpoint
| Call_isClosed
| Call_closeCurve
| Call_clearCurve.

(** The fields of the quantity ([enabled], [curve], [bufferStale]) and the
    globals its methods read or write: [pick::alwaysEvaluatePick], the
    ImGui contexts, whether [focusedPopupUI] holds a callback, and the
    messages passed to [polyscope::error]. *)
Record World := mkWorld {
  enabled : bool;
  curve : Curve;
  bufferStale : bool;
  alwaysEvaluatePick : bool;
  imgui : ImGui.State;
  focusedPopupUI : bool;
  errors : list string;
  calls : list CurveCall
}.

Definition Cmd := World -> World.

Definition skip : Cmd := fun w => w.
Definition andThen (a b : Cmd) : Cmd := fun w => b (a w).
Definition when (c : bool) (a : Cmd) : Cmd := if c then a else skip.

Definition set_enabled (b : bool) : Cmd := fun w =>
  mkWorld b (curve w) (bufferStale w) (alwaysEvaluatePick w) (imgui w)
          (focusedPopupUI w) (errors w) (calls w).

Definition set_curve (c : Curve) : Cmd := fun w =>
  mkWorld (enabled w) c (bufferStale w) (alwaysEvaluatePick w) (imgui w)
          (focusedPopupUI w) (errors w) (calls w).

Definition set_bufferStale (b : bool) : Cmd := fun w =>
  mkWorld (enabled w) (curve w) b (alwaysEvaluatePick w) (imgui w)
          (focusedPopupUI w) (errors w) (calls w).

Definition set_alwaysEvaluatePick (b : bool) : Cmd := fun w =>
  mkWorld (enabled w) (curve w) (bufferStale w) b (imgui w)
          (focusedPopupUI w) (errors w) (calls w).

Definition set_imgui (s : ImGui.State) : Cmd := fun w =>
  mkWorld (enabled w) (curve w) (bufferStale w) (alwaysEvaluatePick w) s
          (focusedPopupUI w) (errors w) (calls w).

Definition set_focusedPopupUI (b : bool) : Cmd := fun w =>
  mkWorld (enabled w) (curve w) (bufferStale w) (alwaysEvaluatePick w) (imgui w)
          b (errors w) (calls w).

(** [polyscope::error(msg)]. *)
Definition polyscope_error (msg : string) : Cmd := fun w =>
  mkWorld (enabled w) (curve w) (bufferStale w) (alwaysEvaluatePick w) (imgui w)
          (focusedPopupUI w) (errors w ++ [msg]) (calls w).

Definition record_call (c : CurveCall) : Cmd := fun w =>
  mkWorld (enabled w) (curve w) (bufferStale w) (alwaysEvaluatePick w) (imgui w)
          (focusedPopupUI w) (errors w) (calls w ++ [c]).

(** What one frame of the user interface reports to the callback, and
    what the main loop does with the quantity in that iteration. *)
Record Frame := mkFrame {
  KeyCtrl : bool;
  WantCaptureMouse : bool;
  MouseDown0 : bool;
  (** the answer of [parent->getPickedFacePoint(fClick, bCoord)] *)
  pickedFace : FacePtr;
  pickedCoord : Vector3;
  (** whether each [ImGui::Button] reports a click *)
  clickedRemoveLast : bool;
  clickedCloseCurve : bool;
  clickedClear : bool;
  clickedDone : bool;
  (** whether the main loop draws the quantity in this iteration before it
      runs the callback, and after it *)
  drawnBefore : bool;
  drawnAfter : bool
}.

(** Whether a recorded call is a call of [tryExtendBack], of [closeCurve]. *)
Definition isExtendCall (c : CurveCall) : bool :=
  match c with Call_tryExtendBack _ _ => true | _ => false end.


(** Whether any of the four buttons reports a click in this frame. *)
Definition anyButton (io : Frame) : bool :=
  clickedRemoveLast io || clickedCloseCurve io || clickedClear io || clickedDone io.

(** ** [userEditCallback], block by block *)

Local Notation "a ;; b" := (andThen a b) (at level 61, right associativity).

(** Lines 150-163: process the mouse selection. *)
Definition processPick (io : Frame) : Cmd :=
  when (KeyCtrl io && negb (WantCaptureMouse io) && MouseDown0 io)
       (match pickedFace io with
        | Some fClick =>   (* fClick != FacePtr() *)
            record_call (Call_tryExtendBack fClick (pickedCoord io)) ;;
            (fun w => set_curve (tryExtendBack fClick (pickedCoord io) (curve w)) w) ;;
            set_bufferStale true
        | None => skip
        end).

(** Lines 166-170: the "Remove last" button. *)
Definition removeLastButton (io : Frame) : Cmd :=
  when (clickedRemoveLast io)
       (record_call Call_removeLastEndpoint ;;
        (fun w => set_curve (removeLastEndpoint (curve w)) w) ;;
        set_bufferStale true).

(** Lines 172-184: the "Close curve" button. *)
Definition closeCurveButton (io : Frame) : Cmd :=
  when (clickedCloseCurve io)
       (record_call Call_isClosed ;;
        (fun w =>
           if isClosed (curve w) then
             polyscope_error "Curve is already closed." w
           else
             let w := record_call Call_closeCurve w in
             match closeCurve (curve w) with
             | (Returned, c) => set_bufferStale true (set_curve c w)
             | (runtime_error, c) =>
                 polyscope_error
                   "Error closing curve. Are both endpoints in same face?"
                   (set_curve c w)
             end)).

(** Lines 187-191: the "Clear" button. *)
Definition clearButton (io : Frame) : Cmd :=
  when (clickedClear io)
       (record_call Call_clearCurve ;;
        (fun w => set_curve (clearCurve (curve w)) w) ;;
        set_bufferStale true).

(** Lines 194-204: the "Done" button. *)
Definition doneButton (io : Frame) : Cmd :=
  when (clickedDone io) (set_focusedPopupUI false).

Definition userEditCallback (io : Frame) : Cmd :=
  processPick io ;;
  removeLastButton io ;;
  closeCurveButton io ;;
  clearButton io ;;
  doneButton io.

(** ** [userEdit] *)

(** What [draw()] does to the fields of the quantity, lines 36-38 and 71:
    on an enabled quantity with stale buffers, [fillBuffers] clears
    [bufferStale]. *)
Definition drawn : Cmd := fun w =>
  if enabled w && bufferStale w then set_bufferStale false w else w.

(** [mainLoopIteration()] is implemented elsewhere in the repository and is
    not part of this source file.  Of one iteration only what reaches the
    quantity is kept: the callback registered in [focusedPopupUI] runs on
    the events of the frame, and the quantity may be drawn before or after
    it.  Whether and when the loop draws is not decided here: the frame
    says so, and every statement about [userEdit] holds for all frames. *)
Definition mainLoopIteration (io : Frame) : Cmd := fun w =>
  let w := when (drawnBefore io) drawn w in
  let w := if focusedPopupUI w then userEditCallback io w else w in
  when (drawnAfter io) drawn w.

Section Loop.

(** The loop body, for any implementation of the iteration. *)
Variable iteration : Frame -> Cmd.

(** [while (focusedPopupUI) mainLoopIteration();] over the frames that
    arrive.  [None]: the frames ran out with the callback still
    registered, the loop has not ended. *)
Fixpoint whileFocused (frames : list Frame) (w : World) : option World :=
  if focusedPopupUI w then
    match frames with
    | [] => None
    | io :: rest => whileFocused rest (iteration io w)
    end
  else Some w.

Definition userEditWith (frames : list Frame) (w : World) : option World :=
  (* enabled = true; *)
  let w := set_enabled true w in
  (* Create a new context; initializeImGUIContext() only configures it *)
  let oldContext := ImGui.GetCurrentContext (imgui w) in
  let '(newContext, g) := ImGui.CreateContext (imgui w) in
  let w := set_imgui (ImGui.SetCurrentContext newContext g) w in
  let oldAlwaysPick := alwaysEvaluatePick w in
  let w := set_alwaysEvaluatePick true w in
  (* Register the callback *)
  let w := set_focusedPopupUI true w in
  (* Re-enter main loop *)
  match whileFocused frames w with
  | None => None
  | Some w =>
      (* Restore the old context *)
      let w := set_alwaysEvaluatePick oldAlwaysPick w in
      let w := set_imgui (ImGui.SetCurrentContext oldContext (imgui w)) w in
      let w := set_imgui (ImGui.DestroyContext newContext (imgui w)) w in
      Some w
  end.

End Loop.

Definition userEdit : list Frame -> World -> option World :=
  userEditWith mainLoopIteration.

(** ** [getCurve] and [setCurve] *)

Section Transfer.

(** [copy(parent->transfer, parent->originalGeometry)] and
    [copyBack(parent->transfer, parent->geometry)]. *)
Variables copy copyBack : Curve -> Curve.

Definition getCurve (w : World) : Curve := copy (curve w).

Definition setCurve (newCurve : Curve) : Cmd :=
  andThen (set_curve (copyBack newCurve)) (set_bufferStale true).

End Transfer.

End Quantity.

Arguments World : clear implicits.
Arguments Frame : clear implicits.
Arguments CurveCall : clear implicits.

(** ** The persistence format, as the interface document words it

    Three parts: a count line [# points: N], [N] lines of points, then a
    count line [# lines: M] and [M] lines of zero-based index pairs. *)

Module Format.

Section Lines.

Context {Vector3 : Type}.
Variable printVector3 : Vector3 -> string.

Definition countLine (label : string) (n : nat) : string :=
  label ++ SizeT.to_string (N.of_nat n) ++ Stream.endl.

Definition pointLine (v : Vector3) : string :=
  printVector3 v ++ Stream.endl.

Definition indexLine (p : nat * nat) : string :=
  SizeT.to_string (N.of_nat (fst p)) ++ ","
    ++ SizeT.to_string (N.of_nat (snd p)) ++ Stream.endl.

Definition pointsSection (vertices : list Vector3) : string :=
  countLine "# points: " (List.length vertices)
    ++ Stream.join (map pointLine vertices).

Definition linesSection (pairs : list (nat * nat)) : string :=
  countLine "# lines: " (List.length pairs)
    ++ Stream.join (map indexLine pairs).

(** The pairs of a closed curve of [k] segments wrap around. *)
Definition closedPairs (k : nat) : list (nat * nat) :=
  map (fun i => (i, (i + 1) mod k)) (seq 0 k).

(** The pairs of an open curve of [k] segments are sequential. *)
Definition openPairs (k : nat) : list (nat * nat) :=
  map (fun i => (i, i + 1)) (seq 0 k).

End Lines.

(** An index pair of the format, as the [size_t] pair the code stores. *)
Definition asSizeT (p : nat * nat) : SizeT.size_t * SizeT.size_t :=
  (N.of_nat (fst p), N.of_nat (snd p)).

(** The file name [writeToFile] ends up with: the argument, or the answer
    of the file dialog when the argument is empty. *)
Definition resolvedFilename (prompt filename : string) : string :=
  if String.eqb filename "" then prompt else filename.

(** The line [writeToFile] sends to [cout]. *)
Definition consoleLine (name filename : string) : string :=
  "Writing curve " ++ name ++ " to file " ++ filename ++ Stream.endl.

End Format.

(** ** Frames of an editing session *)

Section Sessions.

Context {Vector3 Curve : Type} `{API : MeshEmbeddedCurveAPI Vector3 Curve}.

(** The condition of line 152: Ctrl is held, ImGui does not want the mouse,
    and the left button is down. *)
Definition pickRequested (io : Frame Vector3) : bool :=
  KeyCtrl io && negb (WantCaptureMouse io) && MouseDown0 io.

(** The callback run on each frame in turn. *)
Definition runFrames (frames : list (Frame Vector3)) (w : World Vector3 Curve)
  : World Vector3 Curve :=
  fold_left (fun w io => userEditCallback io w) frames w.

(** The frames up to and including the first one that clicks "Done". *)
Fixpoint untilDone (frames : list (Frame Vector3)) : list (Frame Vector3) :=
  match frames with
  | [] => []
  | io :: rest => if clickedDone io then [io] else io :: untilDone rest
  end.

(** The world in which [userEdit] enters its loop: lines 108-120. *)
Definition userEditEntry (w : World Vector3 Curve) : World Vector3 Curve :=
  let w := set_enabled true w in
  let '(newContext, g) := ImGui.CreateContext (imgui w) in
  let w := set_imgui (ImGui.SetCurrentContext newContext g) w in
  let w := set_alwaysEvaluatePick true w in
  set_focusedPopupUI true w.

(** What [userEdit] does after its loop, lines 127-130, to the world [w] the
    loop ended in; [w0] is the world at the time of the call, from which
    [oldContext], [newContext] and [oldAlwaysPick] were taken. *)
Definition userEditExit (w0 w : World Vector3 Curve) : World Vector3 Curve :=
  let oldContext := ImGui.GetCurrentContext (imgui w0) in
  let newContext := fst (ImGui.CreateContext (imgui w0)) in
  let oldAlwaysPick := alwaysEvaluatePick w0 in
  let w := set_alwaysEvaluatePick oldAlwaysPick w in
  let w := set_imgui (ImGui.SetCurrentContext oldContext (imgui w)) w in
  set_imgui (ImGui.DestroyContext newContext (imgui w)) w.

(** The worlds in which the loop of [userEdit] starts an iteration, in
    order; it mirrors [whileFocused]. *)
Fixpoint worldsSeen (iteration : Frame Vector3 -> World Vector3 Curve -> World Vector3 Curve)
         (frames : list (Frame Vector3)) (w : World Vector3 Curve)
  : list (World Vector3 Curve) :=
  if focusedPopupUI w then
    match frames with
    | [] => []
    | io :: rest => w :: worldsSeen iteration rest (iteration io w)
    end
  else [].

(** Two worlds that agree on what the callback does with the curve: the
    curve, the reported errors and the recorded calls.  The stale flag of
    the buffers is left out: drawing clears it. *)
Definition sameEdits (w1 w2 : World Vector3 Curve) : Prop :=
  curve w1 = curve w2
  /\ errors w1 = errors w2
  /\ calls w1 = calls w2.

(** The iterations of the main loop run on each frame in turn. *)
Definition runLoop (frames : list (Frame Vector3)) (w : World Vector3 Curve)
  : World Vector3 Curve :=
  fold_left (fun w io => mainLoopIteration io w) frames w.

End Sessions.

(** ** Drawing: [fillBuffers] and [draw]

    The GL program is reduced to what the quantity sends it: the uniforms
    set, the two vertex attributes and the number of draws issued.
    Matrices, floats and colours are kept abstract, with the one
    multiplication [draw] performs. *)

Section Drawing.

Context {Vector3 Curve : Type} `{API : MeshEmbeddedCurveAPI Vector3 Curve}.

Variables Mat4 Float Color : Type.

(** Multiplication of floating-point numbers, and the literal [5]. *)
Variable fmul : Float -> Float -> Float.
Variable five : Float.

Inductive UniformValue :=
| UMat4 (m : Mat4)
| UVector3 (v : Vector3)
| UFloat (x : Float)
| UColor (c : Color).

(** [gl::GLProgram]: the calls of [setUniform] so far, oldest first, the
    attributes [a_position_tail] and [a_position_tip], and the number of
    calls of [draw()]. *)
Record GLProgram := mkProgram {
  uniforms : list (string * UniformValue);
  a_position_tail : list Vector3;
  a_position_tip : list Vector3;
  drawCalls : nat
}.

Definition setUniform (name : string) (v : UniformValue) (p : GLProgram) : GLProgram :=
  mkProgram (uniforms p ++ [(name, v)]) (a_position_tail p) (a_position_tip p)
            (drawCalls p).

Definition setAttribute_tail (data : list Vector3) (p : GLProgram) : GLProgram :=
  mkProgram (uniforms p) data (a_position_tip p) (drawCalls p).

Definition setAttribute_tip (data : list Vector3) (p : GLProgram) : GLProgram :=
  mkProgram (uniforms p) (a_position_tail p) data (drawCalls p).

Definition program_draw (p : GLProgram) : GLProgram :=
  mkProgram (uniforms p) (a_position_tail p) (a_position_tip p) (S (drawCalls p)).

(** What [draw] reads from the parent mesh, the camera and the global
    state: [parent->getModelView()], [view::getCameraPerspectiveMatrix()],
    [view::getCameraWorldPosition()], [state::center], [state::lengthScale]. *)
Record View := mkView {
  modelView : Mat4;
  cameraPerspective : Mat4;
  cameraWorldPosition : Vector3;
  center : Vector3;
  lengthScale : Float
}.

(** The quantity as the drawing code sees it: the fields of [World] with
    [radiusParam], [curveColor] and the GL program. *)
Record Display := mkDisplay {
  world : World Vector3 Curve;
  radiusParam : Float;
  curveColor : Color;
  program : GLProgram
}.

Definition onWorld (f : World Vector3 Curve -> World Vector3 Curve) (d : Display)
  : Display :=
  mkDisplay (f (world d)) (radiusParam d) (curveColor d) (program d).

Definition onProgram (f : GLProgram -> GLProgram) (d : Display) : Display :=
  mkDisplay (world d) (radiusParam d) (curveColor d) (f (program d)).

(** Body of the loop of [fillBuffers]: two [push_back]s. *)
Definition fillBody (acc : list Vector3 * list Vector3) (c : CurveSegment Vector3)
  : list Vector3 * list Vector3 :=
  let '(pTail, pTip) := acc in
  (pTail ++ [startPosition c], pTip ++ [endPosition c]).

(** [fillBuffers()], lines 59-72. *)
Definition fillBuffers (d : Display) : Display :=
  let '(pTail, pTip) :=
    fold_left fillBody (getCurveSegments (curve (world d))) ([], []) in
  let d := onProgram (setAttribute_tail pTail) d in
  let d := onProgram (setAttribute_tip pTip) d in
  onWorld (set_bufferStale false) d.

(** [draw()], lines 34-57. *)
Definition draw (v : View) (d : Display) : Display :=
  if negb (enabled (world d)) then d
  else
    let d := if bufferStale (world d) then fillBuffers d else d in
    let d := onProgram (setUniform "u_viewMatrix" (UMat4 (modelView v))) d in
    let d := onProgram (setUniform "u_projMatrix" (UMat4 (cameraPerspective v))) d in
    let d := onProgram (setUniform "u_eye" (UVector3 (cameraWorldPosition v))) d in
    let d := onProgram (setUniform "u_lightCenter" (UVector3 (center v))) d in
    let d := onProgram (setUniform "u_lightDist" (UFloat (fmul five (lengthScale v)))) d in
    let d := onProgram (setUniform "u_radius"
                          (UFloat (fmul (radiusParam d) (lengthScale v)))) d in
    let d := onProgram (setUniform "u_color" (UColor (curveColor d))) d in
    onProgram program_draw d.

(** The buffers are up to date: unless they are marked stale, they hold the
    start and the end positions of the segments of the curve. *)
Definition buffersCurrent (d : Display) : Prop :=
  bufferStale (world d) = false ->
  a_position_tail (program d)
  = map (@startPosition _) (getCurveSegments (curve (world d)))
  /\ a_position_tip (program d)
     = map (@endPosition _) (getCurveSegments (curve (world d))).

End Drawing.

Arguments GLProgram : clear implicits.
Arguments UniformValue : clear implicits.
Arguments View : clear implicits.
Arguments Display : clear implicits.

(** ** What [writeToFile] puts in the two sections of the file *)

Section FileContents.

Context {Vector3 : Type}.

(** The points written, in order: the start position of every segment and,
    when the curve is not closed, the end position of the last segment. *)
Definition writtenPoints (closed : bool) (segments : list (CurveSegment Vector3))
  : list Vector3 :=
  if closed then map (@startPosition _) segments
  else map (@startPosition _) segments
       ++ match vector_back segments with
          | Some final => [endPosition final]
          | None => []
          end.

(** The index pairs written, in order. *)
Definition writtenPairs (closed : bool) (segments : list (CurveSegment Vector3))
  : list (nat * nat) :=
  if closed then Format.closedPairs (List.length segments)
  else Format.openPairs (List.length segments).

End FileContents.

(** ** Cross-mesh transfer

    [copy] and [copyBack], which [getCurve] and [setCurve] call, are members
    of [MeshEmbeddedCurve] and are implemented in the geometry library; the
    quantity only passes them the transfer data of its parent and one of
    the two geometries.  They are modelled here from the interface
    document. *)

Module CrossMesh.

(** The outcome of a transfer: the whole curve on the target mesh, or a
    failure; a partial curve is never handed out. *)
Inductive Transferred (Curve : Type) :=
| Whole (c : Curve)
| Failed (e : Editor.EditError).

Arguments Whole {Curve} c.
Arguments Failed {Curve} e.

Section Model.

Context {Vector3 : Type}.

Local Abbreviation BarycentricPoint := (Editor.BarycentricPoint Vector3).
Local Abbreviation Curve := (Editor.MeshEmbeddedCurve Vector3).

(** Modelled from the spec: a mesh as the transfer sees it, its geometry
    provider and its Barycentric Locator [locate(point3D, hintFace?)],
    which answers a point of the mesh or [NotFound], here [None]. *)
Record Mesh := mkMesh {
  geometry : Editor.MeshGeometry Vector3;
  locate : Vector3 -> option FaceHandle -> option BarycentricPoint
}.

(** Modelled from the spec: the correspondence, a black box supplied by the
    mesh-management layer: given a [BarycentricPoint] on the source mesh it
    yields the corresponding 3D position. *)
Definition Correspondence : Type := BarycentricPoint -> Vector3.

(** The 3D position of a point of a mesh. *)
Definition position (m : Mesh) (b : BarycentricPoint) : Vector3 :=
  Editor.resolve (geometry m) (Editor.pointFace b) (Editor.coords b).

(** Modelled from the spec: the transfer of one point.  The correspondence
    yields a 3D position, which the locator of the target mesh re-resolves
    to a point of that mesh; it may land in any face. *)
Definition transferPoint (corr : Correspondence) (target : Mesh)
           (b : BarycentricPoint) : option BarycentricPoint :=
  locate target (corr b) None.

(** Modelled from the spec: the transfer of one endpoint of a segment, a
    3D position in the face of the segment.  It is located on the source
    mesh, with that face as the hint, and then transferred. *)
Definition transferEndpoint (source : Mesh) (corr : Correspondence)
           (target : Mesh) (f : FaceHandle) (p : Vector3)
  : option BarycentricPoint :=
  match locate source p (Some f) with
  | Some b => transferPoint corr target b
  | None => None
  end.

(** Modelled from the spec: each endpoint of a segment is transferred
    independently.  The transferred segment is filed under the face its
    end point landed in, as the segments of the editor are. *)
Definition transferSegment (source : Mesh) (corr : Correspondence)
           (target : Mesh) (s : CurveSegment Vector3)
  : option (CurveSegment Vector3) :=
  match transferEndpoint source corr target (face s) (startPosition s),
        transferEndpoint source corr target (face s) (endPosition s) with
  | Some a, Some b =>
      Some (mkSegment (Editor.pointFace b) (position target a) (position target b))
  | _, _ => None
  end.

(** The segments in order, all of them or none. *)
Fixpoint transferSegments (source : Mesh) (corr : Correspondence)
         (target : Mesh) (l : list (CurveSegment Vector3))
  : option (list (CurveSegment Vector3)) :=
  match l with
  | [] => Some []
  | s :: rest =>
      match transferSegment source corr target s,
            transferSegments source corr target rest with
      | Some s', Some rest' => Some (s' :: rest')
      | _, _ => None
      end
  end.

(** The anchor is a point of the curve and is transferred with it. *)
Definition transferAnchor (corr : Correspondence) (target : Mesh)
           (a : option BarycentricPoint) : option (option BarycentricPoint) :=
  match a with
  | None => Some None
  | Some b =>
      match transferPoint corr target b with
      | Some b' => Some (Some b')
      | None => None
      end
  end.

(** Modelled from the spec: [transfer(curve, correspondence, geometryB)].
    The transferred curve has the segments of the original, transferred
    one by one in order, and its closed flag.  If a point fails to locate
    on the target mesh the whole transfer fails with
    [TransferUnresolvable]. *)
Definition transfer (source : Mesh) (corr : Correspondence) (target : Mesh)
           (c : Curve) : Transferred Curve :=
  match transferAnchor corr target (Editor.pendingAnchor c),
        transferSegments source corr target (Editor.getCurveSegments c) with
  | Some a, Some l =>
      Whole (Editor.mkCurve a (Editor.mkStore l (Editor.isClosed c)))
  | _, _ => Failed Editor.TransferUnresolvable
  end.

(** Modelled from the spec: [transferBack], the inverse direction: the
    same procedure from the second mesh to the first, with the
    correspondence of that direction. *)
Definition transferBack (source : Mesh) (corr : Correspondence) (target : Mesh)
  : Curve -> Transferred Curve :=
  transfer source corr target.

(** Modelled from the spec: two curves are geometrically equivalent, for a
    tolerance given as the relation [close] on positions, when they have
    the same closedness and as many segments, with, in order, the same
    endpoints within tolerance. *)
Definition equivalent (close : Vector3 -> Vector3 -> Prop) (c c' : Curve) : Prop :=
  Editor.isClosed c = Editor.isClosed c'
  /\ Forall2 (fun s s' : CurveSegment Vector3 =>
                close (startPosition s) (startPosition s')
                /\ close (endPosition s) (endPosition s'))
             (Editor.getCurveSegments c) (Editor.getCurveSegments c').

(** A member function carries out a transfer when it returns the
    transferred curve wherever the transfer succeeds; what [copy] and
    [copyBack] do on a curve with an unresolvable point is left open. *)
Definition carriesOut (f : Curve -> Curve) (source : Mesh)
           (corr : Correspondence) (target : Mesh) : Prop :=
  forall c c', transfer source corr target c = Whole c' -> f c = c'.

(** The round trip of a point of the live mesh comes back within
    tolerance, whatever the faces given as hints. *)
Definition undoesWithin (close : Vector3 -> Vector3 -> Prop)
           (live : Mesh) (toReference : Correspondence)
           (reference : Mesh) (toLive : Correspondence) : Prop :=
  forall f p b f' b',
    transferEndpoint live toReference reference f p = Some b ->
    transferEndpoint reference toLive live f' (position reference b) = Some b' ->
    close p (position live b').

(** Modelled from the spec: the round trip, for a tolerance [close].  On a
    quantity whose curve lives on the mesh [live], [getCurve] transfers the
    curve to the mesh [reference] and [setCurve] transfers what it is
    given back onto [live].  Whenever every point is resolvable on both
    meshes, that is, both transfers succeed, handing the result of
    [getCurve] to [setCurve] leaves a curve geometrically equivalent to
    the one the quantity had. *)
Definition roundTrip (close : Vector3 -> Vector3 -> Prop) : Prop :=
  forall (live reference : Mesh) (toReference toLive : Correspondence)
         (copy copyBack : Curve -> Curve) (w : World Vector3 Curve)
         (snapshot restored : Curve),
    carriesOut copy live toReference reference ->
    carriesOut copyBack reference toLive live ->
    transfer live toReference reference (curve w) = Whole snapshot ->
    transferBack reference toLive live snapshot = Whole restored ->
    equivalent close (curve w) (curve (setCurve copyBack (getCurve copy w) w)).

End Model.

Arguments Mesh : clear implicits.
Arguments Correspondence : clear implicits.

End CrossMesh.

(** ** Sample data: a strip of three triangles and curves drawn on it

    Every sample frame has the main loop draw the quantity before and after
    the callback. *)

Module Sample.

(** Integer coordinates stand in for the doubles of a [Vector3]. *)
Definition Vector3 : Type := (nat * nat * nat)%type.

Definition printVector3 (v : Vector3) : string :=
  let '(x, y, z) := v in
  "<" ++ SizeT.to_string (N.of_nat x) ++ ", " ++ SizeT.to_string (N.of_nat y)
      ++ ", " ++ SizeT.to_string (N.of_nat z) ++ ">".

(** Faces 0 and 1 share the edge of vertices 1 and 2; face 1 and face 2
    share vertex 3; face 0 and face 2 share nothing. *)
Definition mesh : Editor.MeshGeometry Vector3 :=
  Editor.mkGeometry
    (fun f => match f with
              | 0 => (0, 1, 2)
              | 1 => (1, 2, 3)
              | _ => (3, 4, 5)
              end)
    (fun _ b => b)
    (fun _ _ _ _ => false).

Definition p0 : Vector3 := (0, 0, 0).
Definition p1 : Vector3 := (1, 0, 0).
Definition p2 : Vector3 := (0, 1, 0).

(** A triangle drawn inside face 0. *)
Definition s01 : CurveSegment Vector3 := mkSegment 0 p0 p1.
Definition s12 : CurveSegment Vector3 := mkSegment 0 p1 p2.
Definition s20 : CurveSegment Vector3 := mkSegment 0 p2 p0.

Definition openTwo : Editor.MeshEmbeddedCurve Vector3 :=
  Editor.mkCurve (Some (Editor.mkPoint 0 p0)) (Editor.mkStore [s01; s12] false).

Definition closedTriangle : Editor.MeshEmbeddedCurve Vector3 :=
  Editor.mkCurve (Some (Editor.mkPoint 0 p0)) (Editor.mkStore [s01; s12; s20] true).

Definition anchored : Editor.MeshEmbeddedCurve Vector3 :=
  Editor.mkCurve (Some (Editor.mkPoint 0 p0)) (Editor.mkStore [] false).

Definition world (c : Editor.MeshEmbeddedCurve Vector3)
  : World Vector3 (Editor.MeshEmbeddedCurve Vector3) :=
  mkWorld false c false false (ImGui.mkState (Some 7) [7]) false [] [].

Definition idle : Frame Vector3 :=
  mkFrame false false false None p0 false false false false true true.

Definition click (f : FacePtr) (b : Vector3) : Frame Vector3 :=
  mkFrame true false true f b false false false false true true.

Definition pressRemoveLast : Frame Vector3 :=
  mkFrame false true false None p0 true false false false true true.


Definition pressClear : Frame Vector3 :=
  mkFrame false true false None p0 false false true false true true.

Definition pressDone : Frame Vector3 :=
  mkFrame false true false None p0 false false false true true true.

(** The text made of the given lines, each ended by a line feed. *)
Definition lines (l : list string) : string :=
  Stream.join (map (fun s => (s ++ Stream.endl)%string) l).

(** The editor as the quantity sees it, over the sample mesh. *)
Definition api : MeshEmbeddedCurveAPI Vector3 (Editor.MeshEmbeddedCurve Vector3) :=
  Editor.api mesh.

(** A camera and a display, with natural numbers standing in for matrices,
    floats and colours. *)
Definition view : View Vector3 nat nat := mkView 1 2 p2 p0 3.

Definition emptyProgram : GLProgram Vector3 nat nat nat := mkProgram [] [] [] 0.

Definition display (enabled : bool) (c : Editor.MeshEmbeddedCurve Vector3)
  : Display Vector3 (Editor.MeshEmbeddedCurve Vector3) nat nat nat :=
  mkDisplay (mkWorld enabled c true false (ImGui.mkState (Some 7) [7]) false [] [])
            1 9 emptyProgram.

(** A closed curve with the start positions of the triangle, but other
    faces and end positions that do not meet the next start. *)
Definition scrambledTriangle : Editor.MeshEmbeddedCurve Vector3 :=
  Editor.mkCurve None
    (Editor.mkStore [mkSegment 1 p0 p2; mkSegment 2 p1 p0; mkSegment 1 p2 p2] true).

(** The strip as the live mesh, whose locator trusts the hint and looks in
    face 0 without one, and a reference mesh of one face, number 5, for the
    same surface: corresponding points have the same position. *)
Definition liveMesh : CrossMesh.Mesh Vector3 :=
  CrossMesh.mkMesh mesh
    (fun p hint => Some (Editor.mkPoint (match hint with Some f => f | None => 0 end) p)).

Definition referenceMesh : CrossMesh.Mesh Vector3 :=
  CrossMesh.mkMesh (Editor.mkGeometry (fun _ => (0, 1, 2)) (fun _ b => b)
                                      (fun _ _ _ _ => false))
                   (fun p _ => Some (Editor.mkPoint 5 p)).

Definition samePosition : CrossMesh.Correspondence Vector3 :=
  fun b => Editor.coords b.

(** A reference mesh that covers only the points at height 0. *)
Definition flatMesh : CrossMesh.Mesh Vector3 :=
  CrossMesh.mkMesh (Editor.mkGeometry (fun _ => (0, 1, 2)) (fun _ b => b)
                                      (fun _ _ _ _ => false))
                   (fun p _ => match p with
                               | (_, 0, _) => Some (Editor.mkPoint 5 p)
                               | _ => None
                               end).

End Sample.

(* ================================================================== *)
(** * Part II. Properties *)
(* ================================================================== *)

(** ** Arithmetic on [size_t] and strings *)

Lemma wrap_small (n : N) : (n < SizeT.modulus)%N -> SizeT.wrap n = n.
Proof. intro H. unfold SizeT.wrap. now apply N.mod_small. Qed.

Lemma SIZE_MAX_modulus : (SizeT.SIZE_MAX + 1 = SizeT.modulus)%N.
Proof. reflexivity. Qed.

Lemma size_small {A} (v : list A) :
  (N.of_nat (List.length v) < SizeT.SIZE_MAX)%N ->
  SizeT.size v = N.of_nat (List.length v).
Proof.
  intro H. unfold SizeT.size. apply wrap_small.
  pose proof SIZE_MAX_modulus. lia.
Qed.

Lemma add_one_small (j : nat) :
  (N.of_nat j < SizeT.SIZE_MAX)%N ->
  SizeT.add (N.of_nat j) 1%N = N.of_nat (j + 1).
Proof.
  intro H. unfold SizeT.add. rewrite wrap_small.
  - lia.
  - pose proof SIZE_MAX_modulus. lia.
Qed.

Lemma string_app_assoc (a b c : string) : ((a ++ b) ++ c = a ++ (b ++ c))%string.
Proof. induction a as [|ch a IH]; simpl; [reflexivity | now rewrite IH]. Qed.

Lemma string_app_nil_r (a : string) : (a ++ "" = a)%string.
Proof. induction a as [|ch a IH]; simpl; [reflexivity | now rewrite IH]. Qed.

Lemma join_app (l1 l2 : list string) :
  Stream.join (l1 ++ l2) = (Stream.join l1 ++ Stream.join l2)%string.
Proof.
  induction l1 as [|s l1 IH]; simpl; [reflexivity |].
  now rewrite IH, string_app_assoc.
Qed.

Lemma vector_back_app {A} (l : list A) (x : A) : vector_back (l ++ [x]) = Some x.
Proof.
  induction l as [|y l IH]; [reflexivity |].
  simpl. destruct (l ++ [x]) eqn:E; [destruct l; discriminate | exact IH].
Qed.

Lemma vector_back_None {A} (l : list A) : vector_back l = None <-> l = [].
Proof.
  split; [| intros ->; reflexivity].
  induction l as [|y l IH]; [reflexivity |].
  simpl. destruct l; [discriminate |]. intro H. apply IH in H. discriminate.
Qed.

Lemma vector_back_last {A} (l : list A) (d : A) :
  l <> [] -> vector_back l = Some (List.last l d).
Proof.
  induction l as [|y l IH]; [congruence |].
  intros _. destruct l as [|z l]; [reflexivity |].
  change (vector_back (z :: l) = Some (List.last (z :: l) d)).
  apply IH. discriminate.
Qed.

(** ** [writeToFile]: what the loops compute *)

Section WriteToFileFacts.

Context {Vector3 Curve : Type} `{API : MeshEmbeddedCurveAPI Vector3 Curve}.
Variable printVector3 : Vector3 -> string.

Lemma fold_closedBody (segments : list (CurveSegment Vector3)) :
  (N.of_nat (List.length segments) < SizeT.SIZE_MAX)%N ->
  forall l out inds j,
    j + List.length l <= List.length segments ->
    fold_left (closedBody printVector3 segments) l (out, inds, N.of_nat j)
    = ((out ++ Stream.join (map (Format.pointLine printVector3)
                                (map (@startPosition _) l)))%string,
       inds ++ map Format.asSizeT
                   (map (fun i => (i, (i + 1) mod List.length segments))
                        (seq j (List.length l))),
       N.of_nat (j + List.length l)).
Proof.
  intros Hsize l.
  induction l as [|s l IH]; intros out inds j Hj; simpl.
  - now rewrite string_app_nil_r, app_nil_r, Nat.add_0_r.
  - simpl in Hj. unfold SizeT.incr.
    rewrite add_one_small by lia.
    rewrite size_small by exact Hsize.
    unfold SizeT.rem. rewrite <- Nat2N.inj_mod.
    replace (j + 1) with (S j) by lia.
    rewrite IH by lia.
    unfold put_Vector3, Stream.put, Format.pointLine.
    rewrite <- !app_assoc, !string_app_assoc. simpl.
    do 2 f_equal. lia.
Qed.

Lemma fold_openBody (l : list (CurveSegment Vector3)) :
  forall out inds j,
    (N.of_nat (j + List.length l) < SizeT.SIZE_MAX)%N ->
    fold_left (openBody printVector3) l (out, inds, N.of_nat j)
    = ((out ++ Stream.join (map (Format.pointLine printVector3)
                                (map (@startPosition _) l)))%string,
       inds ++ map Format.asSizeT (map (fun i => (i, i + 1)) (seq j (List.length l))),
       N.of_nat (j + List.length l)).
Proof.
  induction l as [|s l IH]; intros out inds j Hj; simpl.
  - now rewrite string_app_nil_r, app_nil_r, Nat.add_0_r.
  - simpl in Hj. unfold SizeT.incr.
    rewrite add_one_small by lia.
    replace (j + 1) with (S j) by lia.
    rewrite IH by lia.
    unfold put_Vector3, Stream.put, Format.pointLine.
    rewrite <- !app_assoc, !string_app_assoc. simpl.
    do 2 f_equal. lia.
Qed.

Lemma fold_indexBody (pairs : list (nat * nat)) :
  forall out,
    fold_left indexBody (map Format.asSizeT pairs) out
    = (out ++ Stream.join (map Format.indexLine pairs))%string.
Proof.
  induction pairs as [|p pairs IH]; intro out; simpl.
  - now rewrite string_app_nil_r.
  - rewrite IH. unfold indexBody, Stream.put_size_t, Stream.put, Format.indexLine.
    rewrite !string_app_assoc. reflexivity.
Qed.

Lemma writeIndices_lines (pairs : list (nat * nat)) (out : string) :
  (N.of_nat (List.length pairs) < SizeT.SIZE_MAX)%N ->
  writeIndices out (map Format.asSizeT pairs)
  = (out ++ Format.linesSection pairs)%string.
Proof.
  intro H. unfold writeIndices.
  rewrite fold_indexBody, size_small by (now rewrite length_map).
  rewrite length_map.
  unfold Format.linesSection, Format.countLine, Stream.put_size_t, Stream.put.
  rewrite !string_app_assoc. reflexivity.
Qed.

(** The whole file of a closed curve. *)
Lemma writeToFile_closed (name : string) (curve : Curve) (prompt filename : string) :
  Format.resolvedFilename prompt filename <> "" ->
  (N.of_nat (List.length (getCurveSegments curve)) < SizeT.SIZE_MAX)%N ->
  isClosed curve = true ->
  writeToFile printVector3 name curve prompt filename
  = Written (Format.consoleLine name (Format.resolvedFilename prompt filename))
            (Format.resolvedFilename prompt filename)
            (Format.pointsSection printVector3
               (map (@startPosition _) (getCurveSegments curve))
             ++ Format.linesSection
                  (Format.closedPairs (List.length (getCurveSegments curve)))).
Proof.
  intros Hname Hsize Hclosed. unfold writeToFile.
  fold (Format.resolvedFilename prompt filename).
  destruct (String.eqb_spec (Format.resolvedFilename prompt filename) "") as [E|_];
    [contradiction |].
  rewrite Hclosed.
  rewrite (fold_closedBody _ Hsize _ _ _ 0) by (simpl; lia).
  simpl app.
  rewrite writeIndices_lines by (now rewrite length_map, length_seq).
  rewrite size_small by exact Hsize.
  unfold Format.pointsSection, Format.countLine, Format.closedPairs,
    Format.consoleLine, Stream.put_size_t, Stream.put.
  rewrite length_map. rewrite !string_app_assoc. reflexivity.
Qed.

(** The whole file of an open curve that has a last segment. *)
Lemma writeToFile_open (name : string) (curve : Curve) (prompt filename : string)
      (final : CurveSegment Vector3) :
  Format.resolvedFilename prompt filename <> "" ->
  (N.of_nat (List.length (getCurveSegments curve)) < SizeT.SIZE_MAX)%N ->
  isClosed curve = false ->
  vector_back (getCurveSegments curve) = Some final ->
  writeToFile printVector3 name curve prompt filename
  = Written (Format.consoleLine name (Format.resolvedFilename prompt filename))
            (Format.resolvedFilename prompt filename)
            (Format.pointsSection printVector3
               (map (@startPosition _) (getCurveSegments curve)
                ++ [endPosition final])
             ++ Format.linesSection
                  (Format.openPairs (List.length (getCurveSegments curve)))).
Proof.
  intros Hname Hsize Hopen Hback. unfold writeToFile.
  fold (Format.resolvedFilename prompt filename).
  destruct (String.eqb_spec (Format.resolvedFilename prompt filename) "") as [E|_];
    [contradiction |].
  rewrite Hopen.
  rewrite (fold_openBody _ _ _ 0) by (simpl; lia).
  rewrite Hback.
  simpl app.
  rewrite writeIndices_lines by (now rewrite length_map, length_seq).
  rewrite size_small by exact Hsize.
  replace 1%N with (N.of_nat 1) by reflexivity.
  rewrite add_one_small by exact Hsize.
  unfold Format.pointsSection, Format.countLine, Format.openPairs,
    Format.consoleLine, put_Vector3, Stream.put_size_t, Stream.put.
  rewrite length_app, length_map, map_app, join_app.
  cbn [map Stream.join List.length].
  change (Format.pointLine printVector3 (endPosition final))
    with (printVector3 (endPosition final) ++ Stream.endl)%string.
  rewrite !string_app_assoc. reflexivity.
Qed.

End WriteToFileFacts.

(** ** [writeToFile]: the persistence format *)

Section WriteToFileClaims.

Context {Vector3 Curve : Type} `{API : MeshEmbeddedCurveAPI Vector3 Curve}.
Variable printVector3 : Vector3 -> string.

(** C1.  Whenever [writeToFile] serializes a curve (it has a file name, and
    the curve is closed or has a last segment), the file begins with the
    count line [# points: N] followed by [N] coordinate lines, the curve's
    vertices in traversal order.  For a closed curve these are the start
    points of the segments, so [N] is the segment count.  For an open curve
    they are the start points followed, once, by the end point of the last
    segment, so [N] is the segment count plus one. *)
Theorem writeToFile_points_section
        (name : string) (curve : Curve) (prompt filename : string) :
  let segments := getCurveSegments curve in
  let starts := map (@startPosition _) segments in
  Format.resolvedFilename prompt filename <> "" ->
  (N.of_nat (List.length segments) < SizeT.SIZE_MAX)%N ->
  (isClosed curve = true ->
   exists rest,
     writeToFile printVector3 name curve prompt filename
     = Written (Format.consoleLine name (Format.resolvedFilename prompt filename))
               (Format.resolvedFilename prompt filename)
               (Format.pointsSection printVector3 starts ++ rest)
     /\ List.length starts = List.length segments)
  /\
  (isClosed curve = false ->
   forall front final, segments = front ++ [final] ->
   exists rest,
     writeToFile printVector3 name curve prompt filename
     = Written (Format.consoleLine name (Format.resolvedFilename prompt filename))
               (Format.resolvedFilename prompt filename)
               (Format.pointsSection printVector3 (starts ++ [endPosition final])
                ++ rest)
     /\ List.length (starts ++ [endPosition final]) = List.length segments + 1).
Proof.
  intros segments starts Hname Hsize. split.
  - intro Hclosed. eexists. split.
    + apply writeToFile_closed; assumption.
    + apply length_map.
  - intros Hopen front final Hsegs. eexists. split.
    + apply writeToFile_open; try assumption.
      fold segments. rewrite Hsegs. apply vector_back_app.
    + unfold starts. now rewrite length_app, length_map.
Qed.

(** C2.  After the points section the file holds the count line
    [# lines: M] and then [M] zero-based index pairs [i,j], one per
    segment: the pairs [(i, (i+1) mod N)] for a closed curve of [N]
    segments, the pairs [(i, i+1)] for an open curve.  A closed curve of
    three segments writes exactly [0,1], [1,2], [2,0]. *)
Theorem writeToFile_lines_section
        (name : string) (curve : Curve) (prompt filename : string) :
  let segments := getCurveSegments curve in
  let starts := map (@startPosition _) segments in
  let k := List.length segments in
  Format.resolvedFilename prompt filename <> "" ->
  (N.of_nat k < SizeT.SIZE_MAX)%N ->
  (isClosed curve = true ->
   writeToFile printVector3 name curve prompt filename
   = Written (Format.consoleLine name (Format.resolvedFilename prompt filename))
             (Format.resolvedFilename prompt filename)
             (Format.pointsSection printVector3 starts
              ++ Format.linesSection (map (fun i => (i, (i + 1) mod k)) (seq 0 k)))
   /\ List.length (map (fun i => (i, (i + 1) mod k)) (seq 0 k)) = k
   /\ (k = 3 ->
       Format.linesSection (map (fun i => (i, (i + 1) mod k)) (seq 0 k))
       = ("# lines: 3" ++ Stream.endl
          ++ "0,1" ++ Stream.endl ++ "1,2" ++ Stream.endl ++ "2,0" ++ Stream.endl)%string))
  /\
  (isClosed curve = false ->
   forall front final, segments = front ++ [final] ->
   writeToFile printVector3 name curve prompt filename
   = Written (Format.consoleLine name (Format.resolvedFilename prompt filename))
             (Format.resolvedFilename prompt filename)
             (Format.pointsSection printVector3 (starts ++ [endPosition final])
              ++ Format.linesSection (map (fun i => (i, i + 1)) (seq 0 k)))
   /\ List.length (map (fun i => (i, i + 1)) (seq 0 k)) = k).
Proof.
  intros segments starts k Hname Hsize. split.
  - intro Hclosed. split; [| split].
    + apply writeToFile_closed; assumption.
    + now rewrite length_map, length_seq.
    + intros ->. reflexivity.
  - intros Hopen front final Hsegs. split.
    + apply writeToFile_open; try assumption.
      fold segments. rewrite Hsegs. apply vector_back_app.
    + now rewrite length_map, length_seq.
Qed.

(** C9.  On a curve that is not closed, [writeToFile] reads [back()] of
    the segment vector: the call is defined exactly when the curve has at
    least one segment, and on the empty curve it is the undefined read of
    the last element of an empty vector.  A closed curve never takes that
    branch. *)
Theorem writeToFile_back_precondition
        (name : string) (curve : Curve) (prompt filename : string) :
  Format.resolvedFilename prompt filename <> "" ->
  (isClosed curve = false ->
   (writeToFile printVector3 name curve prompt filename = UndefinedBehaviour
    <-> getCurveSegments curve = [])
   /\ (writeToFile printVector3 name curve prompt filename = UndefinedBehaviour
       <-> vector_back (getCurveSegments curve) = None))
  /\
  (isClosed curve = true ->
   writeToFile printVector3 name curve prompt filename <> UndefinedBehaviour).
Proof.
  intro Hname.
  assert (Hback : isClosed curve = false ->
                  (writeToFile printVector3 name curve prompt filename
                   = UndefinedBehaviour
                   <-> vector_back (getCurveSegments curve) = None)).
  { intro Hopen. unfold writeToFile.
    fold (Format.resolvedFilename prompt filename).
    destruct (String.eqb_spec (Format.resolvedFilename prompt filename) "")
      as [E|_]; [contradiction |].
    rewrite Hopen.
    destruct (fold_left _ _ _) as [[out inds] i].
    destruct (vector_back (getCurveSegments curve)); split; intro H;
      (discriminate || reflexivity). }
  split.
  - intro Hopen. split; [| now apply Hback].
    rewrite <- vector_back_None. now apply Hback.
  - intro Hclosed. unfold writeToFile.
    fold (Format.resolvedFilename prompt filename).
    destruct (String.eqb_spec (Format.resolvedFilename prompt filename) "")
      as [E|_]; [contradiction |].
    rewrite Hclosed.
    destruct (fold_left _ _ _) as [[out inds] i]. discriminate.
Qed.

End WriteToFileClaims.

(** ** [userEditCallback] and [userEdit] on any curve implementation *)

Section CallbackFacts.

Context {Vector3 Curve : Type} `{API : MeshEmbeddedCurveAPI Vector3 Curve}.

Local Abbreviation World := (World Vector3 Curve).
Local Abbreviation Frame := (Frame Vector3).

Lemma filter_snoc {A} (p : A -> bool) (l : list A) (x : A) :
  p x = false -> filter p (l ++ [x]) = filter p l.
Proof. intro H. rewrite filter_app. simpl. rewrite H. apply app_nil_r. Qed.

(** Case analysis on what is left to decide in a run of the callback:
    whether the curve is closed, and whether [closeCurve] threw. *)
Ltac callback_cases :=
  cbn;
  repeat match goal with
    | |- context [if ?b then _ else _] => destruct b; cbn
    | |- context [match ?p with (_, _) => _ end] =>
        let t := fresh "t" in destruct p as [t ?]; destruct t; cbn
    end.

(** Unfolds the blocks of the callback down to the setters. *)
Ltac callback_unfold :=
  unfold userEditCallback, processPick, doneButton, clearButton,
    closeCurveButton, removeLastButton, when, andThen, skip.

(** No button block calls [tryExtendBack]. *)
Lemma buttons_no_extend (io : Frame) (w : World) :
  filter (@isExtendCall _)
         (calls (doneButton io (clearButton io (closeCurveButton io
                   (removeLastButton io w)))))
  = filter (@isExtendCall _) (calls w).
Proof.
  callback_unfold.
  destruct (clickedRemoveLast io), (clickedCloseCurve io),
    (clickedClear io), (clickedDone io); callback_cases;
    rewrite ?filter_snoc by reflexivity; reflexivity.
Qed.

(** The callback never writes [enabled]. *)
Lemma userEditCallback_enabled (io : Frame) (w : World) :
  enabled (userEditCallback io w) = enabled w.
Proof.
  callback_unfold.
  destruct (KeyCtrl io && negb (WantCaptureMouse io) && MouseDown0 io),
    (pickedFace io), (clickedRemoveLast io), (clickedCloseCurve io),
    (clickedClear io), (clickedDone io); callback_cases; reflexivity.
Qed.

(** Nor the globals that [userEdit] saves. *)
Lemma userEditCallback_globals (io : Frame) (w : World) :
  alwaysEvaluatePick (userEditCallback io w) = alwaysEvaluatePick w
  /\ imgui (userEditCallback io w) = imgui w.
Proof.
  callback_unfold.
  destruct (KeyCtrl io && negb (WantCaptureMouse io) && MouseDown0 io),
    (pickedFace io), (clickedRemoveLast io), (clickedCloseCurve io),
    (clickedClear io), (clickedDone io); callback_cases; split; reflexivity.
Qed.

(** A pick on a face makes one call of [tryExtendBack] and marks the
    buffers stale, whatever the call did to the curve. *)
Lemma processPick_extends (io : Frame) (w : World) (fClick : FaceHandle) :
  KeyCtrl io && negb (WantCaptureMouse io) && MouseDown0 io = true ->
  pickedFace io = Some fClick ->
  curve (processPick io w) = tryExtendBack fClick (pickedCoord io) (curve w)
  /\ bufferStale (processPick io w) = true
  /\ calls (processPick io w)
     = calls w ++ [Call_tryExtendBack fClick (pickedCoord io)].
Proof.
  intros Hkeys Hface. unfold processPick, when, andThen.
  rewrite Hkeys, Hface. repeat split.
Qed.

(** A click on "Remove last" makes one call of [removeLastEndpoint]. *)
Lemma removeLastButton_removes (io : Frame) (w : World) :
  clickedRemoveLast io = true ->
  curve (removeLastButton io w) = removeLastEndpoint (curve w)
  /\ bufferStale (removeLastButton io w) = true.
Proof.
  intro Hclick. unfold removeLastButton, when, andThen.
  rewrite Hclick. split; reflexivity.
Qed.

(** [getCurve] reads, [setCurve] replaces the curve and marks the buffers
    stale; handing the result of [getCurve] back to [setCurve] stores
    [copyBack (copy curve)], so what a round trip preserves is what the two
    transfers of the geometry library preserve. *)
Lemma setCurve_getCurve (copy copyBack : Curve -> Curve) (w : World) :
  curve (setCurve copyBack (getCurve copy w) w) = copyBack (copy (curve w))
  /\ bufferStale (setCurve copyBack (getCurve copy w) w) = true.
Proof. split; reflexivity. Qed.

(** Drawing touches nothing but the stale flag of the buffers. *)
Lemma drawn_keeps (b : bool) (w : World) :
  enabled (when b drawn w) = enabled w
  /\ alwaysEvaluatePick (when b drawn w) = alwaysEvaluatePick w
  /\ imgui (when b drawn w) = imgui w
  /\ focusedPopupUI (when b drawn w) = focusedPopupUI w
  /\ curve (when b drawn w) = curve w
  /\ errors (when b drawn w) = errors w
  /\ calls (when b drawn w) = calls w.
Proof.
  unfold when, drawn, skip.
  destruct b; [destruct (enabled w && bufferStale w) |]; repeat split.
Qed.

Lemma mainLoopIteration_enabled (io : Frame) (w : World) :
  enabled (mainLoopIteration io w) = enabled w.
Proof.
  unfold mainLoopIteration.
  destruct (drawn_keeps (drawnBefore io) w) as [He _].
  rewrite (proj1 (drawn_keeps (drawnAfter io) _)).
  destruct (focusedPopupUI _); [now rewrite userEditCallback_enabled | exact He].
Qed.

(** An iteration unregisters the callback exactly on a click on "Done". *)
Lemma mainLoopIteration_focus (io : Frame) (w : World) :
  focusedPopupUI (mainLoopIteration io w)
  = focusedPopupUI w && negb (clickedDone io).
Proof.
  unfold mainLoopIteration.
  destruct (drawn_keeps (drawnBefore io) w) as [_ [_ [_ [Hf _]]]].
  rewrite (proj1 (proj2 (proj2 (proj2 (drawn_keeps (drawnAfter io) _))))).
  rewrite Hf.
  destruct (focusedPopupUI w) eqn:Hfocus; [| exact Hf].
  revert Hf. generalize (when (drawnBefore io) drawn w). intros w1 Hw1.
  unfold userEditCallback, andThen, doneButton, when, skip.
  destruct (clickedDone io); cbn; [reflexivity |].
  unfold clearButton, closeCurveButton, removeLastButton, processPick,
    when, andThen, skip.
  destruct (KeyCtrl io && negb (WantCaptureMouse io) && MouseDown0 io),
    (pickedFace io), (clickedRemoveLast io), (clickedCloseCurve io),
    (clickedClear io); callback_cases; exact Hw1.
Qed.

Lemma whileFocused_enabled (frames : list Frame) :
  forall w w',
    whileFocused mainLoopIteration frames w = Some w' -> enabled w' = enabled w.
Proof.
  induction frames as [|io frames IH]; intros w w' H; simpl in H;
    destruct (focusedPopupUI w); try discriminate;
    try (injection H as <-; reflexivity).
  apply IH in H. now rewrite H, mainLoopIteration_enabled.
Qed.

(** The loop ends as soon as a frame reports a click on "Done". *)
Lemma whileFocused_terminates (frames : list Frame) :
  forall w,
    existsb (@clickedDone _) frames = true ->
    exists w', whileFocused mainLoopIteration frames w = Some w'.
Proof.
  induction frames as [|io frames IH]; intros w H; [discriminate |].
  simpl. destruct (focusedPopupUI w) eqn:Hf; [| now eexists].
  simpl in H. destruct (clickedDone io) eqn:Hd.
  - assert (Hoff : focusedPopupUI (mainLoopIteration io w) = false).
    { rewrite mainLoopIteration_focus, Hd. apply andb_false_r. }
    destruct frames; simpl; rewrite Hoff; now eexists.
  - now apply IH.
Qed.

Lemma fresh_not_current (s : ImGui.State) :
  ImGui.ptr_eqb (ImGui.current s) (Some (ImGui.fresh s)) = false.
Proof.
  unfold ImGui.fresh. destruct (ImGui.current s) as [c|]; [| reflexivity].
  simpl. apply Nat.eqb_neq. lia.
Qed.

(** Whatever the loop body does, a returning [userEditWith] has put back
    the pick flag and the current context it found. *)
Lemma userEditWith_restores (iteration : Frame -> World -> World)
      (frames : list Frame) (w w' : World) :
  userEditWith iteration frames w = Some w' ->
  alwaysEvaluatePick w' = alwaysEvaluatePick w
  /\ ImGui.current (imgui w') = ImGui.current (imgui w).
Proof.
  unfold userEditWith. cbn.
  destruct (whileFocused _ _ _) as [w1|]; [| discriminate].
  intro H. injection H as <-. cbn. split; [reflexivity |].
  now rewrite fresh_not_current.
Qed.

(** C8.  When the pick reports the null face handle, the edit step does
    nothing: the world, and with it the curve, is as before, and the
    callback as a whole makes no call of [tryExtendBack]; with no button
    clicked in that frame the whole callback leaves the world as it was. *)
Theorem null_pick_is_noop (io : Frame) (w : World) :
  pickedFace io = FacePtr_null ->
  processPick io w = w
  /\ curve (processPick io w) = curve w
  /\ filter (@isExtendCall _) (calls (userEditCallback io w))
     = filter (@isExtendCall _) (calls w)
  /\ (anyButton io = false -> userEditCallback io w = w).
Proof.
  intro Hnull.
  assert (Hpick : processPick io w = w).
  { unfold processPick, when. rewrite Hnull. unfold FacePtr_null.
    now destruct (KeyCtrl io && negb (WantCaptureMouse io) && MouseDown0 io). }
  repeat split.
  - exact Hpick.
  - now rewrite Hpick.
  - unfold userEditCallback, andThen. rewrite Hpick. apply buttons_no_extend.
  - unfold anyButton. intro Hnone.
    apply orb_false_elim in Hnone as [Hnone Hdone].
    apply orb_false_elim in Hnone as [Hnone Hclear].
    apply orb_false_elim in Hnone as [Hremove Hclose].
    unfold userEditCallback, andThen. rewrite Hpick.
    unfold removeLastButton, closeCurveButton, clearButton, doneButton, when.
    now rewrite Hremove, Hclose, Hclear, Hdone.
Qed.

(** C10.  A call of [userEdit] that returns leaves
    [pick::alwaysEvaluatePick] with the value it had before the call and
    makes the previously current ImGui context current again, whereas
    [enabled], set to [true] on entry, is [true] whatever it was before.
    The call returns as soon as a frame reports a click on "Done". *)
Theorem userEdit_restores_globals (frames : list Frame) (w : World) :
  (forall w',
      userEdit frames w = Some w' ->
      alwaysEvaluatePick w' = alwaysEvaluatePick w
      /\ ImGui.current (imgui w') = ImGui.current (imgui w)
      /\ enabled w' = true)
  /\ (existsb (@clickedDone _) frames = true ->
      exists w', userEdit frames w = Some w').
Proof.
  split.
  - intros w' H.
    destruct (userEditWith_restores _ _ _ H) as [Hpick Hctx].
    repeat split; try assumption.
    unfold userEdit, userEditWith in H. cbn in H.
    destruct (whileFocused _ _ _) as [w1|] eqn:Hloop; [| discriminate].
    injection H as <-. cbn.
    now rewrite (whileFocused_enabled _ _ Hloop).
  - intro Hdone. unfold userEdit, userEditWith. cbn.
    destruct (whileFocused_terminates frames
                (set_focusedPopupUI true
                   (set_alwaysEvaluatePick true
                      (set_imgui
                         (ImGui.SetCurrentContext (Some (ImGui.fresh (imgui w)))
                            (snd (ImGui.CreateContext (imgui w))))
                         (set_enabled true w)))) Hdone) as [w1 Hw1].
    cbn in Hw1. rewrite Hw1. now eexists.
Qed.

End CallbackFacts.

(** ** The curve editor *)

Section EditorFacts.

Context {Vector3 : Type}.

Local Abbreviation Curve := (Editor.MeshEmbeddedCurve Vector3).
Local Abbreviation Geometry := (Editor.MeshGeometry Vector3).

(** A face shares its vertices with itself. *)
Lemma adjacent_refl (g : Geometry) (f : FaceHandle) : Editor.adjacent g f f = true.
Proof.
unfold Editor.adjacent, Editor.vertexList.
destruct (Editor.faceVertices g f) as [[a b] c]. simpl.
now rewrite Nat.eqb_refl.
Qed.

Lemma not_adjacent_distinct (g : Geometry) (f1 f2 : FaceHandle) :
  Editor.adjacent g f1 f2 = false -> Nat.eqb f1 f2 = false.
Proof.
intro H. destruct (Nat.eqb_spec f1 f2) as [->|]; [| reflexivity].
now rewrite adjacent_refl in H.
Qed.

(** An Open curve has a back endpoint. *)
Lemma open_has_backEndpoint (g : Geometry) (c : Curve) :
  Editor.state c = Editor.Open ->
  exists backFace backPosition,
    Editor.backEndpoint g c = Some (backFace, backPosition).
Proof.
unfold Editor.state, Editor.backEndpoint, Editor.isEmpty, Editor.hasAnchor,
  Editor.getCurveSegments.
destruct (Editor.isClosed c); [discriminate |].
destruct (Editor.segments (Editor.store c)) as [|s l] eqn:E.
- destruct (Editor.pendingAnchor c); [| discriminate]. intros _. simpl. eauto.
- intros _. destruct (vector_back (s :: l)) eqn:B; [eauto |].
  apply vector_back_None in B. discriminate.
Qed.

(** One removal from a curve with segments. *)
Lemma removeLastEndpoint_step (a : option (Editor.BarycentricPoint Vector3))
      (s : CurveSegment Vector3) (l : list (CurveSegment Vector3)) (cl : bool) :
  Editor.removeLastEndpoint (Editor.mkCurve a (Editor.mkStore (s :: l) cl))
  = Editor.mkCurve (match removelast (s :: l) with [] => None | _ :: _ => a end)
                   (Editor.mkStore (removelast (s :: l)) false).
Proof.
unfold Editor.removeLastEndpoint, Editor.getCurveSegments, Editor.removeLast,
  Editor.isEmpty.
cbn [Editor.store Editor.segments Editor.pendingAnchor Editor.closedFlag].
now destruct (removelast (s :: l)).
Qed.

(** Popping as many times as there are segments leaves the Empty curve. *)
Lemma removeLastEndpoint_iter (n : nat) :
  forall (a : option (Editor.BarycentricPoint Vector3))
         (l : list (CurveSegment Vector3)) (cl : bool),
    l <> [] ->
    List.length l = n ->
    Nat.iter n Editor.removeLastEndpoint (Editor.mkCurve a (Editor.mkStore l cl))
    = Editor.emptyCurve.
Proof.
induction n as [|n IH]; intros a l cl Hne Hlen.
- destruct l; [contradiction | discriminate].
- rewrite Nat.iter_succ_r.
  destruct l as [|s l]; [discriminate |].
  rewrite removeLastEndpoint_step.
  destruct (exists_last Hne) as [front [final E]].
  rewrite E, removelast_last. rewrite E, length_app in Hlen.
  simpl in Hlen.
  destruct front as [|t front].
  + simpl in Hlen. replace n with 0 by lia. reflexivity.
  + apply IH; [discriminate | simpl in *; lia].
Qed.

(** Every editing operation keeps the editor's invariant. *)
Lemma wellFormed_with_segments (a : option (Editor.BarycentricPoint Vector3))
      (l : list (CurveSegment Vector3)) (x : CurveSegment Vector3) (cl : bool) :
  Editor.wellFormed (Editor.mkCurve a (Editor.mkStore (l ++ [x]) cl)) = true.
Proof.
unfold Editor.wellFormed, Editor.hasAnchor, Editor.isEmpty, Editor.isClosed.
cbn [Editor.store Editor.segments Editor.pendingAnchor Editor.closedFlag].
destruct l, a, cl; reflexivity.
Qed.

Lemma wellFormed_tryExtendBack (g : Geometry) (f : FaceHandle) (p : Vector3)
      (c : Curve) :
  Editor.wellFormed c = true ->
  Editor.wellFormed (snd (Editor.tryExtendBack g f p c)) = true.
Proof.
intro Hwf. unfold Editor.tryExtendBack.
destruct (Editor.isClosed c) eqn:Hcl; [exact Hwf |].
destruct (Editor.backEndpoint g c) as [[backFace backPosition]|] eqn:B.
- destruct (Nat.eqb f backFace); [apply wellFormed_with_segments |].
  destruct (_ && _); [apply wellFormed_with_segments | exact Hwf].
- unfold Editor.backEndpoint, Editor.getCurveSegments in B.
  destruct c as [a [l cl]]. cbn in *. subst cl.
  destruct (vector_back l) eqn:V; [discriminate |].
  apply vector_back_None in V. subst l. reflexivity.
Qed.

Lemma wellFormed_removeLastEndpoint (c : Curve) :
  Editor.wellFormed c = true ->
  Editor.wellFormed (Editor.removeLastEndpoint c) = true.
Proof.
destruct c as [a [l cl]]. destruct l as [|s l].
- unfold Editor.wellFormed, Editor.removeLastEndpoint, Editor.isEmpty,
    Editor.hasAnchor, Editor.isClosed, Editor.getCurveSegments. cbn.
  now destruct cl.
- intros _. rewrite removeLastEndpoint_step.
  unfold Editor.wellFormed, Editor.isEmpty, Editor.hasAnchor, Editor.isClosed.
  cbn [Editor.store Editor.segments Editor.pendingAnchor Editor.closedFlag].
  destruct (removelast (s :: l)); [reflexivity | now destruct a].
Qed.

Lemma wellFormed_closeCurve (c : Curve) :
  Editor.wellFormed c = true ->
  Editor.wellFormed (snd (Editor.closeCurve c)) = true.
Proof.
intro Hwf. unfold Editor.closeCurve.
destruct (Editor.isClosed c) eqn:Hcl; [exact Hwf |].
destruct (Editor.getCurveSegments c) as [|s l]; [exact Hwf |].
destruct (Editor.firstStartFace c); [| exact Hwf].
destruct (Editor.lastEndFace c); [| exact Hwf].
destruct (Nat.eqb _ _); [| exact Hwf].
apply wellFormed_with_segments.
Qed.

Lemma wellFormed_clearCurve (c : Curve) :
  Editor.wellFormed (Editor.clearCurve c) = true.
Proof. reflexivity. Qed.

(** Hence every curve an editing session reaches satisfies the invariant. *)
Lemma wellFormed_session (g : Geometry) (ops : list (Editor.Operation Vector3)) :
  Editor.wellFormed (Editor.session g ops) = true.
Proof.
unfold Editor.session.
assert (Hstart : Editor.wellFormed (@Editor.emptyCurve Vector3) = true)
  by reflexivity.
revert Hstart. generalize (@Editor.emptyCurve Vector3).
induction ops as [|op ops IH]; intros c Hwf; [exact Hwf |].
simpl. apply IH. destruct op; simpl.
- now apply wellFormed_tryExtendBack.
- now apply wellFormed_removeLastEndpoint.
- now apply wellFormed_closeCurve.
- apply wellFormed_clearCurve.
Qed.

(** Chains of segments: appending a segment that starts where the last one
    ends, and dropping the last segment, keep a chain. *)
Lemma chained_app (l : list (CurveSegment Vector3)) (x : CurveSegment Vector3) :
  Editor.chained l ->
  (forall s, vector_back l = Some s -> endPosition s = startPosition x) ->
  Editor.chained (l ++ [x]).
Proof.
induction l as [|s l IH]; intros Hch Hlast; [simpl; auto |].
destruct l as [|t l].
- simpl. split; [| auto]. now apply Hlast.
- destruct Hch as [Hst Hch]. change ((s :: t :: l) ++ [x]) with (s :: (t :: l) ++ [x]).
  split; [exact Hst |]. apply IH; [exact Hch |].
  intros u Hu. apply Hlast. exact Hu.
Qed.

Lemma chained_removelast (l : list (CurveSegment Vector3)) :
  Editor.chained l -> Editor.chained (removelast l).
Proof.
induction l as [|s l IH]; intro Hch; [exact I |].
destruct l as [|t l]; [exact I |].
destruct Hch as [Hst Hch].
change (removelast (s :: t :: l)) with (s :: removelast (t :: l)).
split; [| now apply IH].
destruct l as [|u l]; [exact I | exact Hst].
Qed.

(** Every operation keeps the segments of the curve chained: no gap ever
    appears in the store. *)
Lemma chained_applyOperation (g : Geometry) (c : Curve)
      (op : Editor.Operation Vector3) :
  Editor.chained (Editor.getCurveSegments c) ->
  Editor.chained (Editor.getCurveSegments (Editor.applyOperation g c op)).
Proof.
intro Hch. destruct op as [f p| | |]; simpl.
- unfold Editor.tryExtendBack.
  destruct (Editor.isClosed c); [exact Hch |].
  unfold Editor.backEndpoint.
  destruct (vector_back (Editor.getCurveSegments c)) as [s|] eqn:B.
  + assert (Hext : forall x,
               startPosition x = endPosition s ->
               Editor.chained (Editor.getCurveSegments c ++ [x])).
    { intros x Hx. apply chained_app; [exact Hch |].
      intros s' Hs'. rewrite B in Hs'. injection Hs' as <-. now rewrite Hx. }
    destruct (Nat.eqb f (face s)); [now apply Hext |].
    destruct (_ && _); [now apply Hext | exact Hch].
  + apply vector_back_None in B.
    destruct (Editor.pendingAnchor c) as [a|]; [| exact Hch].
    destruct (Nat.eqb f (Editor.pointFace a)).
    * unfold Editor.getCurveSegments in *. simpl. now rewrite B.
    * destruct (_ && _); [| exact Hch].
      unfold Editor.getCurveSegments in *. simpl. now rewrite B.
- destruct c as [a [l cl]]. destruct l as [|s l]; [exact I |].
  rewrite removeLastEndpoint_step.
  cbn [Editor.getCurveSegments Editor.store Editor.segments] in *.
  now apply chained_removelast.
- destruct c as [a [l cl]]. unfold Editor.closeCurve, Editor.firstStartFace,
    Editor.lastEndFace, Editor.getCurveSegments, Editor.isClosed in *.
  cbn [Editor.store Editor.segments Editor.pendingAnchor Editor.closedFlag] in *.
  destruct cl; [exact Hch |].
  destruct l as [|s l]; [exact I |].
  destruct (option_map _ a); [| exact Hch].
  destruct (option_map _ (vector_back (s :: l))); [| exact Hch].
  destruct (Nat.eqb _ _); [| exact Hch].
  cbn [snd Editor.store Editor.segments Editor.append].
  apply chained_app; [exact Hch |].
  intros u Hu. rewrite (vector_back_last s) in Hu by discriminate.
  injection Hu as <-. now destruct l.
- exact I.
Qed.

(** A curve with segments has kept its anchor: every operation keeps this,
    so the first start point of a curve reached by editing has a face. *)
Lemma anchored_applyOperation (g : Geometry) (c : Curve)
      (op : Editor.Operation Vector3) :
  (Editor.getCurveSegments c <> [] -> Editor.pendingAnchor c <> None) ->
  Editor.getCurveSegments (Editor.applyOperation g c op) <> [] ->
  Editor.pendingAnchor (Editor.applyOperation g c op) <> None.
Proof.
intro Hanch. destruct op as [f p| | |]; simpl.
- unfold Editor.tryExtendBack.
  destruct (Editor.isClosed c); [exact Hanch |].
  unfold Editor.backEndpoint.
  destruct (vector_back (Editor.getCurveSegments c)) as [s|] eqn:B.
  + assert (Hne : Editor.getCurveSegments c <> []).
    { intro E. rewrite E in B. discriminate. }
    destruct (Nat.eqb f (face s)); [intros _; now apply Hanch |].
    destruct (_ && _); [intros _; now apply Hanch | exact Hanch].
  + destruct (Editor.pendingAnchor c) as [a|] eqn:A;
      [| cbn; intros _; discriminate].
    destruct (Nat.eqb f (Editor.pointFace a)); [cbn; intros _; discriminate |].
    destruct (_ && _); [cbn; intros _; discriminate |].
    cbn. intros _. rewrite A. discriminate.
- destruct c as [a [l cl]]. destruct l as [|s l]; [cbn; congruence |].
  rewrite removeLastEndpoint_step.
  cbn [Editor.getCurveSegments Editor.store Editor.segments Editor.pendingAnchor] in *.
  destruct (removelast (s :: l)); [congruence |].
  intros _. apply Hanch. discriminate.
- unfold Editor.closeCurve.
  destruct (Editor.isClosed c); [exact Hanch |].
  destruct (Editor.getCurveSegments c) as [|s l] eqn:E;
    [simpl snd; rewrite E; exact Hanch |].
  destruct (Editor.firstStartFace c); [| simpl snd; rewrite E; exact Hanch].
  destruct (Editor.lastEndFace c); [| simpl snd; rewrite E; exact Hanch].
  destruct (Nat.eqb _ _); [| simpl snd; rewrite E; exact Hanch].
  cbn. intros _. apply Hanch. discriminate.
- cbn. congruence.
Qed.

Lemma firstStartFace_session (g : Geometry) (ops : list (Editor.Operation Vector3)) :
  Editor.getCurveSegments (Editor.session g ops) <> [] ->
  exists f, Editor.firstStartFace (Editor.session g ops) = Some f.
Proof.
assert (Hinv : Editor.getCurveSegments (Editor.session g ops) <> [] ->
               Editor.pendingAnchor (Editor.session g ops) <> None).
{ unfold Editor.session.
  assert (Hstart : Editor.getCurveSegments (@Editor.emptyCurve Vector3) <> [] ->
                   Editor.pendingAnchor (@Editor.emptyCurve Vector3) <> None)
    by (cbn; congruence).
  revert Hstart. generalize (@Editor.emptyCurve Vector3).
  induction ops as [|op ops IH]; intros c Hc; [exact Hc |].
  simpl. apply IH. now apply anchored_applyOperation. }
intro Hne. apply Hinv in Hne. unfold Editor.firstStartFace.
destruct (Editor.pendingAnchor _) as [a|]; [| contradiction].
now exists (Editor.pointFace a).
Qed.

(** Appending to a curve with segments leaves its first segment. *)
Lemma startsAtAnchor_append (g : Geometry)
      (a : option (Editor.BarycentricPoint Vector3))
      (l : list (CurveSegment Vector3)) (x : CurveSegment Vector3) (cl cl' : bool) :
  l <> [] ->
  Editor.startsAtAnchor g (Editor.mkCurve a (Editor.mkStore l cl)) ->
  Editor.startsAtAnchor g (Editor.mkCurve a (Editor.mkStore (l ++ [x]) cl')).
Proof.
intros Hne H first rest E. unfold Editor.getCurveSegments in E. cbn in E.
destruct l as [|s l]; [contradiction |].
simpl in E. injection E as <- _.
exact (H s l eq_refl).
Qed.

Lemma startsAtAnchor_applyOperation (g : Geometry) (c : Curve)
      (op : Editor.Operation Vector3) :
  Editor.startsAtAnchor g c -> Editor.startsAtAnchor g (Editor.applyOperation g c op).
Proof.
intro H. destruct c as [a [l cl]]. destruct op as [f p| | |]; simpl.
- unfold Editor.tryExtendBack, Editor.backEndpoint, Editor.isClosed,
    Editor.getCurveSegments, Editor.append.
  cbn [Editor.store Editor.segments Editor.closedFlag Editor.pendingAnchor].
  destruct cl; [exact H |].
  destruct (vector_back l) as [s|] eqn:B.
  + assert (Hne : l <> []) by (intro E; rewrite E in B; discriminate).
    destruct (Nat.eqb f (face s));
      [now apply startsAtAnchor_append with (cl := false) |].
    destruct (_ && _); [now apply startsAtAnchor_append with (cl := false) | exact H].
  + apply vector_back_None in B. subst l.
    destruct a as [a|].
    * assert (Hfirst : forall x,
                 Editor.startsAtAnchor g
                   (Editor.mkCurve (Some a)
                      (Editor.mkStore
                         ([] ++ [mkSegment f
                                   (Editor.resolve g (Editor.pointFace a)
                                                   (Editor.coords a)) x])
                         false))).
      { intros x first rest E. unfold Editor.getCurveSegments in E. cbn in E.
        injection E as <- _. now exists a. }
      destruct (Nat.eqb f (Editor.pointFace a)); [apply Hfirst |].
      destruct (_ && _); [apply Hfirst | exact H].
    * intros first rest E. discriminate.
- unfold Editor.removeLastEndpoint, Editor.getCurveSegments, Editor.removeLast,
    Editor.isEmpty.
  cbn [Editor.store Editor.segments Editor.closedFlag Editor.pendingAnchor].
  destruct l as [|s l]; [intros first rest E; discriminate |].
  intros first rest E. unfold Editor.getCurveSegments in E.
  cbn [Editor.store Editor.segments] in E.
  rewrite E. destruct (H s l eq_refl) as [a0 [Ha Hs]].
  exists a0. split; [exact Ha |].
  destruct l as [|t l]; [discriminate |].
  simpl in E. injection E as <- _. exact Hs.
- unfold Editor.closeCurve, Editor.isClosed,
    Editor.firstStartFace, Editor.lastEndFace, Editor.append,
    Editor.getCurveSegments.
  cbn [Editor.store Editor.segments Editor.closedFlag Editor.pendingAnchor].
  destruct cl; [exact H |].
  destruct l as [|s l]; [exact H |].
  destruct (option_map (@Editor.pointFace _) a); [| exact H].
  destruct (option_map (@face _) (vector_back (s :: l))); [| exact H].
  destruct (Nat.eqb _ _); [| exact H].
  cbn [snd]. apply startsAtAnchor_append with (cl := false); [discriminate | exact H].
- intros first rest E. discriminate.
Qed.

(** The anchor is the first start point: in a curve reached by editing,
    the first segment starts at the position of the anchor, so
    [firstStartFace] is the face the first start point was located in. *)
Lemma startsAtAnchor_session (g : Geometry) (ops : list (Editor.Operation Vector3)) :
  Editor.startsAtAnchor g (Editor.session g ops).
Proof.
unfold Editor.session.
assert (Hstart : Editor.startsAtAnchor g (@Editor.emptyCurve Vector3))
  by (intros first rest E; discriminate).
revert Hstart. generalize (@Editor.emptyCurve Vector3).
induction ops as [|op ops IH]; intros c Hc; [exact Hc |].
simpl. apply IH. now apply startsAtAnchor_applyOperation.
Qed.

Lemma chained_session (g : Geometry) (ops : list (Editor.Operation Vector3)) :
  Editor.chained (Editor.getCurveSegments (Editor.session g ops)).
Proof.
unfold Editor.session.
assert (Hstart : Editor.chained (Editor.getCurveSegments (@Editor.emptyCurve Vector3)))
  by exact I.
revert Hstart. generalize (@Editor.emptyCurve Vector3).
induction ops as [|op ops IH]; intros c Hch; [exact Hch |].
simpl. apply IH. now apply chained_applyOperation.
Qed.

End EditorFacts.

(** ** The editing operations, on the model and through the callback *)

Section EditorClaims.

Context {Vector3 : Type}.

Local Abbreviation Curve := (Editor.MeshEmbeddedCurve Vector3).
Local Abbreviation Geometry := (Editor.MeshGeometry Vector3).
Local Abbreviation World := (World Vector3 Curve).
Local Abbreviation Frame := (Frame Vector3).


(** C5.  On a non-empty curve that can be extended, that is, an Open one,
    which always has a back endpoint, a candidate whose face is not
    adjacent to the face of the back endpoint makes [tryExtendBack] fail
    with [DisconnectedPick] and leaves the curve, hence the segment store
    and its length, as it was.  The rule is that of the curves being
    drawn: the Closed curve is dealt with before it, there the call does
    nothing, and the curve is likewise unchanged. *)
Theorem tryExtendBack_disconnected (g : Geometry) (candidateFace : FaceHandle)
        (candidatePoint : Vector3) (c : Curve) :
  (Editor.state c = Editor.Open ->
   (exists backFace backPosition,
       Editor.backEndpoint g c = Some (backFace, backPosition))
   /\ forall backFace backPosition,
       Editor.backEndpoint g c = Some (backFace, backPosition) ->
       Editor.adjacent g candidateFace backFace = false ->
       Editor.tryExtendBack g candidateFace candidatePoint c
       = (Editor.Failure Editor.DisconnectedPick, c)
       /\ Editor.store (snd (Editor.tryExtendBack g candidateFace candidatePoint c))
          = Editor.store c
       /\ List.length (Editor.getCurveSegments
                         (snd (Editor.tryExtendBack g candidateFace candidatePoint c)))
          = List.length (Editor.getCurveSegments c))
  /\
  (Editor.state c = Editor.Closed ->
   Editor.tryExtendBack g candidateFace candidatePoint c = (Editor.SilentNoOp, c)).
Proof.
split.
- intro Hopen. split; [now apply open_has_backEndpoint |].
  intros backFace backPosition Hback Hadj.
  assert (Hcl : Editor.isClosed c = false).
  { unfold Editor.state in Hopen. now destruct (Editor.isClosed c). }
  assert (Hfail : Editor.tryExtendBack g candidateFace candidatePoint c
                  = (Editor.Failure Editor.DisconnectedPick, c)).
  { unfold Editor.tryExtendBack. rewrite Hcl, Hback.
    now rewrite (not_adjacent_distinct _ _ _ Hadj), Hadj. }
  now rewrite Hfail.
- intro Hclosed. unfold Editor.tryExtendBack.
  unfold Editor.state in Hclosed.
  destruct (Editor.isClosed c); [reflexivity |].
  now destruct (_ && _).
Qed.

(** C6.  Applying [removeLastEndpoint] once per segment, and once more for
    the pending anchor when there is one, yields the Empty curve, which has
    no segments.  On an Empty curve it changes nothing, and the curve it
    leaves is never Closed. *)
Theorem removeLastEndpoint_empties (c : Curve) :
  Editor.wellFormed c = true ->
  let k := List.length (Editor.getCurveSegments c) in
  let n := k + (if Editor.hasAnchor c then 1 else 0) in
  Nat.iter n Editor.removeLastEndpoint c = Editor.emptyCurve
  /\ Editor.state (Nat.iter n Editor.removeLastEndpoint c) = Editor.Empty
  /\ Editor.getCurveSegments (Nat.iter n Editor.removeLastEndpoint c) = []
  /\ (Editor.state c = Editor.Empty -> Editor.removeLastEndpoint c = c)
  /\ Editor.state (Editor.removeLastEndpoint c) <> Editor.Closed.
Proof.
intros Hwf k n.
assert (Hiter : Nat.iter n Editor.removeLastEndpoint c = Editor.emptyCurve).
{ unfold n, k. destruct c as [a [l cl]].
  unfold Editor.wellFormed, Editor.isEmpty, Editor.hasAnchor, Editor.isClosed in Hwf.
  unfold Editor.getCurveSegments, Editor.hasAnchor, Editor.isEmpty.
  cbn [Editor.store Editor.segments Editor.pendingAnchor Editor.closedFlag] in *.
  destruct l as [|s l].
  - destruct a as [a|], cl; try discriminate; reflexivity.
  - replace (match a with Some _ => false | None => false end) with false
      by now destruct a.
    rewrite Nat.add_0_r. now apply removeLastEndpoint_iter. }
rewrite Hiter. repeat split.
- destruct c as [a [l cl]].
  unfold Editor.state, Editor.isEmpty, Editor.hasAnchor, Editor.isClosed. cbn.
  destruct cl; [discriminate |].
  destruct l; [| discriminate]. destruct a; [discriminate | reflexivity].
- assert (Hcl : Editor.isClosed (Editor.removeLastEndpoint c) = false).
  { destruct c as [a [l cl]].
    unfold Editor.wellFormed, Editor.isEmpty, Editor.hasAnchor, Editor.isClosed in Hwf.
    cbn in Hwf. destruct l; [| reflexivity].
    cbn. destruct cl; [discriminate | reflexivity]. }
  unfold Editor.state. rewrite Hcl. destruct (_ && _); discriminate.
Qed.

(** C7.  [clearCurve] resets any curve, Empty, Open or Closed, to the Empty
    curve with no segments; it cannot fail.  A frame in which "Clear" is
    clicked therefore ends with the Empty curve, whatever else the frame
    did before. *)
Theorem clearCurve_resets (g : Geometry) (io : Frame) (w : World) :
  let w' := userEditCallback (API := Editor.api g) io w in
  (forall c : Curve,
      Editor.clearCurve c = Editor.emptyCurve
      /\ Editor.state (Editor.clearCurve c) = Editor.Empty
      /\ List.length (Editor.getCurveSegments (Editor.clearCurve c)) = 0)
  /\ (clickedClear io = true ->
      curve w' = Editor.emptyCurve
      /\ Editor.state (curve w') = Editor.Empty
      /\ Editor.getCurveSegments (curve w') = []
      /\ bufferStale w' = true).
Proof.
intro w'. split; [intro c; repeat split |].
intro Hclick.
assert (Hcurve : curve w' = Editor.emptyCurve /\ bufferStale w' = true).
{ unfold w', userEditCallback, andThen.
  generalize (closeCurveButton (API := Editor.api g) io
                (removeLastButton (API := Editor.api g) io
                   (processPick (API := Editor.api g) io w))).
  intro w3. unfold clearButton, doneButton, when, andThen. rewrite Hclick.
  now destruct (clickedDone io). }
destruct Hcurve as [Hcurve Hstale]. rewrite Hcurve. now repeat split.
Qed.

End EditorClaims.

(** ** Cross-mesh transfer and the round trip of [getCurve] and [setCurve] *)

Section TransferFacts.

Context {Vector3 : Type}.

Local Abbreviation Curve := (Editor.MeshEmbeddedCurve Vector3).
Local Abbreviation Mesh := (CrossMesh.Mesh Vector3).
Local Abbreviation Correspondence := (CrossMesh.Correspondence Vector3).
Local Abbreviation World := (World Vector3 Curve).

Lemma transferSegments_length (source : Mesh) (corr : Correspondence)
      (target : Mesh) (l : list (CurveSegment Vector3)) :
  forall l',
    CrossMesh.transferSegments source corr target l = Some l' ->
    List.length l' = List.length l.
Proof.
induction l as [|s l IH]; intros l' H; simpl in H.
- now injection H as <-.
- destruct (CrossMesh.transferSegment source corr target s) as [s'|];
    [| discriminate].
  destruct (CrossMesh.transferSegments source corr target l) as [rest|];
    [| discriminate].
  injection H as <-. simpl. now rewrite (IH rest).
Qed.

(** A transfer that succeeds gives a curve with the segments transferred
    one by one and the closed flag of the original. *)
Lemma transfer_Whole (source : Mesh) (corr : Correspondence) (target : Mesh)
      (c c' : Curve) :
  CrossMesh.transfer source corr target c = CrossMesh.Whole c' ->
  CrossMesh.transferSegments source corr target (Editor.getCurveSegments c)
  = Some (Editor.getCurveSegments c')
  /\ Editor.isClosed c' = Editor.isClosed c.
Proof.
unfold CrossMesh.transfer.
destruct (CrossMesh.transferAnchor _ _ _) as [a|]; [| discriminate].
destruct (CrossMesh.transferSegments _ _ _ _) as [l|]; [| discriminate].
intro H. injection H as <-. now split.
Qed.

(** The transferred curve preserves segment count and closedness. *)
Lemma transfer_preserves_shape (source : Mesh) (corr : Correspondence)
      (target : Mesh) (c c' : Curve) :
  CrossMesh.transfer source corr target c = CrossMesh.Whole c' ->
  List.length (Editor.getCurveSegments c') = List.length (Editor.getCurveSegments c)
  /\ Editor.isClosed c' = Editor.isClosed c.
Proof.
intro H. destruct (transfer_Whole _ _ _ _ H) as [Hsegs Hclosed].
split; [now apply transferSegments_length with (1 := Hsegs) | exact Hclosed].
Qed.

(** The transfer fails as a whole as soon as one segment has an endpoint
    that cannot be resolved. *)
Lemma transfer_atomic (source : Mesh) (corr : Correspondence) (target : Mesh)
      (c : Curve) (s : CurveSegment Vector3) :
  In s (Editor.getCurveSegments c) ->
  CrossMesh.transferSegment source corr target s = None ->
  CrossMesh.transfer source corr target c
  = CrossMesh.Failed Editor.TransferUnresolvable.
Proof.
intros Hin Hnone. unfold CrossMesh.transfer.
assert (Hsegs : CrossMesh.transferSegments source corr target
                  (Editor.getCurveSegments c) = None).
{ induction (Editor.getCurveSegments c) as [|t l IH]; [contradiction |].
  simpl. destruct Hin as [-> | Hin].
  - now rewrite Hnone.
  - rewrite (IH Hin). now destruct (CrossMesh.transferSegment _ _ _ t). }
rewrite Hsegs. now destruct (CrossMesh.transferAnchor _ _ _).
Qed.

(** What [getCurve] followed by [setCurve] stores, when [copy] and
    [copyBack] carry out the two transfers and both succeed. *)
Lemma setCurve_getCurve_transfers (live reference : Mesh)
      (toReference toLive : Correspondence) (copy copyBack : Curve -> Curve)
      (w : World) (snapshot restored : Curve) :
  CrossMesh.carriesOut copy live toReference reference ->
  CrossMesh.carriesOut copyBack reference toLive live ->
  CrossMesh.transfer live toReference reference (curve w)
  = CrossMesh.Whole snapshot ->
  CrossMesh.transferBack reference toLive live snapshot
  = CrossMesh.Whole restored ->
  curve (setCurve copyBack (getCurve copy w) w) = restored.
Proof.
intros Hcopy Hback Hto Hfrom.
unfold setCurve, getCurve, andThen. cbn.
rewrite (Hcopy _ _ Hto). now apply Hback.
Qed.

(** The round trip preserves the segment count and the closed flag. *)
Lemma roundTrip_shape (live reference : Mesh)
      (toReference toLive : Correspondence) (copy copyBack : Curve -> Curve)
      (w : World) (snapshot restored : Curve) :
  CrossMesh.carriesOut copy live toReference reference ->
  CrossMesh.carriesOut copyBack reference toLive live ->
  CrossMesh.transfer live toReference reference (curve w)
  = CrossMesh.Whole snapshot ->
  CrossMesh.transferBack reference toLive live snapshot
  = CrossMesh.Whole restored ->
  let after := curve (setCurve copyBack (getCurve copy w) w) in
  List.length (Editor.getCurveSegments after)
  = List.length (Editor.getCurveSegments (curve w))
  /\ Editor.isClosed after = Editor.isClosed (curve w).
Proof.
intros Hcopy Hback Hto Hfrom after.
unfold after.
rewrite (setCurve_getCurve_transfers w Hcopy Hback Hto Hfrom).
destruct (transfer_preserves_shape _ _ _ _ Hto) as [Hn1 Hc1].
destruct (transfer_preserves_shape _ _ _ _ Hfrom) as [Hn2 Hc2].
split; congruence.
Qed.

Lemma transferSegments_roundTrip (close : Vector3 -> Vector3 -> Prop)
      (live reference : Mesh) (toReference toLive : Correspondence) :
  CrossMesh.undoesWithin close live toReference reference toLive ->
  forall l l1 l2,
    CrossMesh.transferSegments live toReference reference l = Some l1 ->
    CrossMesh.transferSegments reference toLive live l1 = Some l2 ->
    Forall2 (fun s s' : CurveSegment Vector3 =>
               close (startPosition s) (startPosition s')
               /\ close (endPosition s) (endPosition s')) l l2.
Proof.
intro Hundo.
induction l as [|s l IH]; intros l1 l2 H1 H2; simpl in H1.
- injection H1 as <-. simpl in H2. injection H2 as <-. constructor.
- destruct (CrossMesh.transferSegment live toReference reference s) as [s1|] eqn:Es;
    [| discriminate].
  destruct (CrossMesh.transferSegments live toReference reference l) as [r1|];
    [| discriminate].
  injection H1 as <-. simpl in H2.
  destruct (CrossMesh.transferSegment reference toLive live s1) as [s2|] eqn:Es1;
    [| discriminate].
  destruct (CrossMesh.transferSegments reference toLive live r1) as [r2|] eqn:Er;
    [| discriminate].
  injection H2 as <-.
  constructor; [| now apply (IH r1)].
  unfold CrossMesh.transferSegment in Es, Es1.
  destruct (CrossMesh.transferEndpoint live toReference reference
              (face s) (startPosition s)) as [a|] eqn:Ea; [| discriminate].
  destruct (CrossMesh.transferEndpoint live toReference reference
              (face s) (endPosition s)) as [b|] eqn:Eb; [| discriminate].
  injection Es as <-. cbn [face startPosition endPosition] in Es1.
  destruct (CrossMesh.transferEndpoint reference toLive live _
              (CrossMesh.position reference a)) as [a'|] eqn:Ea'; [| discriminate].
  destruct (CrossMesh.transferEndpoint reference toLive live _
              (CrossMesh.position reference b)) as [b'|] eqn:Eb'; [| discriminate].
  injection Es1 as <-. cbn [startPosition endPosition].
  split; [exact (Hundo _ _ _ _ _ Ea Ea') | exact (Hundo _ _ _ _ _ Eb Eb')].
Qed.

(** Between two meshes whose correspondences undo each other within the
    tolerance, the round trip gives a geometrically equivalent curve.
    Whether the correspondences of a surface do so is a property of the
    transfer data, which the quantity receives from its parent. *)
Lemma roundTrip_when_undone (close : Vector3 -> Vector3 -> Prop)
      (live reference : Mesh) (toReference toLive : Correspondence)
      (copy copyBack : Curve -> Curve) (w : World) (snapshot restored : Curve) :
  CrossMesh.undoesWithin close live toReference reference toLive ->
  CrossMesh.carriesOut copy live toReference reference ->
  CrossMesh.carriesOut copyBack reference toLive live ->
  CrossMesh.transfer live toReference reference (curve w)
  = CrossMesh.Whole snapshot ->
  CrossMesh.transferBack reference toLive live snapshot
  = CrossMesh.Whole restored ->
  CrossMesh.equivalent close (curve w)
                       (curve (setCurve copyBack (getCurve copy w) w)).
Proof.
intros Hundo Hcopy Hback Hto Hfrom.
rewrite (setCurve_getCurve_transfers w Hcopy Hback Hto Hfrom).
destruct (transfer_Whole _ _ _ _ Hto) as [Hs1 Hc1].
destruct (transfer_Whole _ _ _ _ Hfrom) as [Hs2 Hc2].
split; [congruence |].
exact (transferSegments_roundTrip Hundo _ Hs1 Hs2).
Qed.

End TransferFacts.

(** ** The operations at work on the sample curves *)

Example writeToFile_closedTriangle :
  writeToFile (API := Sample.api) Sample.printVector3
              "loop" Sample.closedTriangle "" "loop.txt"
  = Written (Sample.lines ["Writing curve loop to file loop.txt"])
            "loop.txt"
            (Sample.lines ["# points: 3"; "<0, 0, 0>"; "<1, 0, 0>"; "<0, 1, 0>";
                           "# lines: 3"; "0,1"; "1,2"; "2,0"]).
Proof. vm_compute. reflexivity. Qed.

Example writeToFile_openTwo :
  writeToFile (API := Sample.api) Sample.printVector3
              "path" Sample.openTwo "path.txt" ""
  = Written (Sample.lines ["Writing curve path to file path.txt"])
            "path.txt"
            (Sample.lines ["# points: 3"; "<0, 0, 0>"; "<1, 0, 0>"; "<0, 1, 0>";
                           "# lines: 2"; "0,1"; "1,2"]).
Proof. vm_compute. reflexivity. Qed.

Example writeToFile_cancelled :
  writeToFile (API := Sample.api) Sample.printVector3
              "path" Sample.openTwo "" ""
  = NothingWritten.
Proof. reflexivity. Qed.

Example writeToFile_emptyCurve :
  writeToFile (API := Sample.api) Sample.printVector3
              "none" Editor.emptyCurve "" "none.txt"
  = UndefinedBehaviour.
Proof. reflexivity. Qed.

(** Drawing in face 0, stepping into the adjacent face 1, and being refused
    a jump to face 2 from face 0. *)
Example tryExtendBack_session :
  let c1 := snd (Editor.tryExtendBack Sample.mesh 0 Sample.p0 Editor.emptyCurve) in
  let c2 := snd (Editor.tryExtendBack Sample.mesh 0 Sample.p1 c1) in
  let c3 := snd (Editor.tryExtendBack Sample.mesh 1 Sample.p2 c2) in
  c1 = Sample.anchored
  /\ Editor.getCurveSegments c2 = [Sample.s01]
  /\ Editor.getCurveSegments c3 = [Sample.s01; mkSegment 1 Sample.p1 Sample.p2]
  /\ Editor.tryExtendBack Sample.mesh 2 Sample.p2 c2
     = (Editor.Failure Editor.DisconnectedPick, c2)
  /\ Editor.closeCurve Sample.openTwo = (Editor.Success, Sample.closedTriangle).
Proof. vm_compute. repeat split. Qed.

(** A curve that leaves face 0 for the adjacent face 1 and comes back to
    face 0 closes: its first start point and its last end point were both
    located in face 0, although the first segment is filed under face 1. *)
Example closeCurve_after_detour :
  let c := Editor.session Sample.mesh
             [Editor.ExtendBack 0 Sample.p0; Editor.ExtendBack 1 Sample.p1;
              Editor.ExtendBack 0 Sample.p2] in
  Editor.getCurveSegments c
  = [mkSegment 1 Sample.p0 Sample.p1; mkSegment 0 Sample.p1 Sample.p2]
  /\ Editor.firstStartFace c = Some 0
  /\ Editor.lastEndFace c = Some 0
  /\ fst (Editor.closeCurve c) = Editor.Success
  /\ Editor.getCurveSegments (snd (Editor.closeCurve c))
     = [mkSegment 1 Sample.p0 Sample.p1; mkSegment 0 Sample.p1 Sample.p2;
        mkSegment 0 Sample.p2 Sample.p0]
  /\ Editor.isClosed (snd (Editor.closeCurve c)) = true.
Proof. vm_compute. repeat split. Qed.

(** A curve whose last point was located in another face than its first
    does not close. *)
Example closeCurve_other_face :
  let c := Editor.session Sample.mesh
             [Editor.ExtendBack 0 Sample.p0; Editor.ExtendBack 1 Sample.p1] in
  Editor.closeCurve c = (Editor.Failure Editor.InvalidClosure, c).
Proof. vm_compute. reflexivity. Qed.

(** The triangle goes to the one-face reference mesh and comes back as it
    was; on a reference mesh that does not cover the point [p2] the
    transfer fails as a whole. *)
Example transfer_closedTriangle :
  CrossMesh.transfer Sample.liveMesh Sample.samePosition Sample.referenceMesh
                     Sample.closedTriangle
  = CrossMesh.Whole
      (Editor.mkCurve (Some (Editor.mkPoint 5 Sample.p0))
         (Editor.mkStore [mkSegment 5 Sample.p0 Sample.p1;
                          mkSegment 5 Sample.p1 Sample.p2;
                          mkSegment 5 Sample.p2 Sample.p0] true))
  /\ CrossMesh.transferBack Sample.referenceMesh Sample.samePosition Sample.liveMesh
       (Editor.mkCurve (Some (Editor.mkPoint 5 Sample.p0))
          (Editor.mkStore [mkSegment 5 Sample.p0 Sample.p1;
                           mkSegment 5 Sample.p1 Sample.p2;
                           mkSegment 5 Sample.p2 Sample.p0] true))
     = CrossMesh.Whole Sample.closedTriangle
  /\ CrossMesh.transfer Sample.liveMesh Sample.samePosition Sample.flatMesh
                        Sample.closedTriangle
     = CrossMesh.Failed Editor.TransferUnresolvable.
Proof. vm_compute. repeat split. Qed.

(** ** Instances of the theorems *)

Lemma writeToFile_points_section_witness :
  (exists rest,
      writeToFile (API := Sample.api) Sample.printVector3
                  "loop" Sample.closedTriangle "" "loop.txt"
      = Written (Format.consoleLine "loop" "loop.txt") "loop.txt"
                (Format.pointsSection Sample.printVector3
                   [Sample.p0; Sample.p1; Sample.p2] ++ rest)
      /\ 3 = 3)
  /\
  (exists rest,
      writeToFile (API := Sample.api) Sample.printVector3
                  "path" Sample.openTwo "" "path.txt"
      = Written (Format.consoleLine "path" "path.txt") "path.txt"
                (Format.pointsSection Sample.printVector3
                   [Sample.p0; Sample.p1; Sample.p2] ++ rest)
      /\ 3 = 2 + 1).
Proof.
split.
- apply (proj1 (writeToFile_points_section (API := Sample.api)
                  Sample.printVector3 "loop" Sample.closedTriangle "" "loop.txt"
                  ltac:(discriminate) ltac:(reflexivity))).
  reflexivity.
- apply (proj2 (writeToFile_points_section (API := Sample.api)
                  Sample.printVector3 "path" Sample.openTwo "" "path.txt"
                  ltac:(discriminate) ltac:(reflexivity))
               eq_refl [Sample.s01] Sample.s12 eq_refl).
Defined.

Lemma writeToFile_lines_section_witness :
  writeToFile (API := Sample.api) Sample.printVector3
              "loop" Sample.closedTriangle "" "loop.txt"
  = Written (Format.consoleLine "loop" "loop.txt") "loop.txt"
            (Format.pointsSection Sample.printVector3
               [Sample.p0; Sample.p1; Sample.p2]
             ++ Format.linesSection [(0, 1); (1, 2); (2, 0)])
  /\
  writeToFile (API := Sample.api) Sample.printVector3
              "path" Sample.openTwo "" "path.txt"
  = Written (Format.consoleLine "path" "path.txt") "path.txt"
            (Format.pointsSection Sample.printVector3
               [Sample.p0; Sample.p1; Sample.p2]
             ++ Format.linesSection [(0, 1); (1, 2)]).
Proof.
split.
- apply (proj1 (writeToFile_lines_section (API := Sample.api)
                  Sample.printVector3 "loop" Sample.closedTriangle "" "loop.txt"
                  ltac:(discriminate) ltac:(reflexivity))).
  reflexivity.
- apply (proj2 (writeToFile_lines_section (API := Sample.api)
                  Sample.printVector3 "path" Sample.openTwo "" "path.txt"
                  ltac:(discriminate) ltac:(reflexivity))
               eq_refl [Sample.s01] Sample.s12 eq_refl).
Defined.

Lemma writeToFile_back_precondition_witness :
  (writeToFile (API := Sample.api) Sample.printVector3
               "none" Editor.emptyCurve "" "none.txt" = UndefinedBehaviour
   <-> @nil (CurveSegment Sample.Vector3) = [])
  /\ writeToFile (API := Sample.api) Sample.printVector3
                 "loop" Sample.closedTriangle "" "loop.txt" <> UndefinedBehaviour.
Proof.
split.
- apply (proj1 (writeToFile_back_precondition (API := Sample.api)
                  Sample.printVector3 "none" Editor.emptyCurve "" "none.txt"
                  ltac:(discriminate))).
  reflexivity.
- apply (proj2 (writeToFile_back_precondition (API := Sample.api)
                  Sample.printVector3 "loop" Sample.closedTriangle "" "loop.txt"
                  ltac:(discriminate))).
  reflexivity.
Defined.


Lemma tryExtendBack_disconnected_witness :
  Editor.state Sample.openTwo = Editor.Open
  /\ Editor.backEndpoint Sample.mesh Sample.openTwo = Some (0, Sample.p2)
  /\ Editor.adjacent Sample.mesh 2 0 = false
  /\ Editor.tryExtendBack Sample.mesh 2 Sample.p0 Sample.openTwo
     = (Editor.Failure Editor.DisconnectedPick, Sample.openTwo)
  /\ Editor.tryExtendBack Sample.mesh 2 Sample.p0 Sample.closedTriangle
     = (Editor.SilentNoOp, Sample.closedTriangle).
Proof.
split; [reflexivity |]. split; [reflexivity |]. split; [reflexivity |].
split.
- exact (proj1 (proj2 (proj1 (tryExtendBack_disconnected Sample.mesh 2 Sample.p0
                                Sample.openTwo) eq_refl)
                      0 Sample.p2 eq_refl eq_refl)).
- exact (proj2 (tryExtendBack_disconnected Sample.mesh 2 Sample.p0
                  Sample.closedTriangle) eq_refl).
Defined.

Lemma removeLastEndpoint_empties_witness :
  Editor.wellFormed Sample.closedTriangle = true
  /\ Nat.iter 3 Editor.removeLastEndpoint Sample.closedTriangle = Editor.emptyCurve
  /\ Editor.wellFormed Sample.anchored = true
  /\ Nat.iter 1 Editor.removeLastEndpoint Sample.anchored = Editor.emptyCurve.
Proof.
split; [reflexivity |].
split; [exact (proj1 (removeLastEndpoint_empties Sample.closedTriangle eq_refl)) |].
split; [reflexivity |].
exact (proj1 (removeLastEndpoint_empties Sample.anchored eq_refl)).
Defined.

Lemma clearCurve_resets_witness :
  clickedClear Sample.pressClear = true
  /\ curve (userEditCallback (API := Sample.api) Sample.pressClear
                             (Sample.world Sample.closedTriangle))
     = Editor.emptyCurve.
Proof.
split; [reflexivity |].
exact (proj1 (proj2 (clearCurve_resets Sample.mesh Sample.pressClear
                       (Sample.world Sample.closedTriangle)) eq_refl)).
Defined.

Lemma null_pick_is_noop_witness :
  pickedFace (Sample.click FacePtr_null Sample.p1) = FacePtr_null
  /\ userEditCallback (API := Sample.api) (Sample.click FacePtr_null Sample.p1)
                      (Sample.world Sample.openTwo)
     = Sample.world Sample.openTwo.
Proof.
split; [reflexivity |].
exact (proj2 (proj2 (proj2 (null_pick_is_noop (API := Sample.api)
                              (Sample.click FacePtr_null Sample.p1)
                              (Sample.world Sample.openTwo) eq_refl)))
             eq_refl).
Defined.

Lemma userEdit_restores_globals_witness :
  let frames := [Sample.click (Some 0) Sample.p0; Sample.pressDone] in
  exists w',
    userEdit (API := Sample.api) frames (Sample.world Editor.emptyCurve) = Some w'
    /\ alwaysEvaluatePick w' = false
    /\ ImGui.current (imgui w') = Some 7
    /\ enabled w' = true
    /\ curve w' = Sample.anchored.
Proof.
intro frames.
pose proof (userEdit_restores_globals (API := Sample.api) frames
              (Sample.world Editor.emptyCurve)) as [Hrestore Hreturn].
destruct (Hreturn eq_refl) as [w' Hw']. exists w'.
split; [exact Hw' |].
destruct (Hrestore w' Hw') as [Hpick [Hctx Hen]].
split; [exact Hpick |]. split; [exact Hctx |]. split; [exact Hen |].
vm_compute in Hw'. injection Hw' as <-. reflexivity.
Defined.

(* ================================================================== *)
(** * Part III. Further properties of the source *)
(* ================================================================== *)

(** ** [writeToFile]: what the file refers to *)

Section WriteToFileMore.

Context {Vector3 Curve : Type} `{API : MeshEmbeddedCurveAPI Vector3 Curve}.
Variable printVector3 : Vector3 -> string.

(** The whole file, for a closed curve and for an open curve with a last
    segment alike. *)
Lemma writeToFile_contents (name : string) (curve : Curve) (prompt filename : string) :
  Format.resolvedFilename prompt filename <> "" ->
  (N.of_nat (List.length (getCurveSegments curve)) < SizeT.SIZE_MAX)%N ->
  isClosed curve = true \/ getCurveSegments curve <> [] ->
  writeToFile printVector3 name curve prompt filename
  = Written (Format.consoleLine name (Format.resolvedFilename prompt filename))
            (Format.resolvedFilename prompt filename)
            (Format.pointsSection printVector3
               (writtenPoints (isClosed curve) (getCurveSegments curve))
             ++ Format.linesSection
                  (writtenPairs (isClosed curve) (getCurveSegments curve))).
Proof.
  intros Hname Hsize Hshape. unfold writtenPoints, writtenPairs.
  destruct (isClosed curve) eqn:Hclosed.
  - now apply writeToFile_closed.
  - destruct Hshape as [Hshape | Hne]; [discriminate |].
    destruct (vector_back (getCurveSegments curve)) as [final|] eqn:Hback.
    + now apply writeToFile_open.
    + apply vector_back_None in Hback. contradiction.
Qed.

Lemma writtenPoints_length (closed : bool) (segments : list (CurveSegment Vector3)) :
  closed = true \/ segments <> [] ->
  List.length (writtenPoints closed segments)
  = List.length segments + (if closed then 0 else 1).
Proof.
  intro Hshape. unfold writtenPoints. destruct closed.
  - rewrite length_map. lia.
  - destruct Hshape as [Hshape | Hne]; [discriminate |].
    destruct (vector_back segments) eqn:Hback.
    + rewrite length_app, length_map. reflexivity.
    + apply vector_back_None in Hback. contradiction.
Qed.

(** Every index of the lines section names a line of the points section:
    both members of every pair written are below the number of points
    written. *)
Theorem writeToFile_indices_in_range
        (name : string) (curve : Curve) (prompt filename : string) :
  let segments := getCurveSegments curve in
  let points := writtenPoints (isClosed curve) segments in
  let pairs := writtenPairs (isClosed curve) segments in
  Format.resolvedFilename prompt filename <> "" ->
  (N.of_nat (List.length segments) < SizeT.SIZE_MAX)%N ->
  isClosed curve = true \/ segments <> [] ->
  writeToFile printVector3 name curve prompt filename
  = Written (Format.consoleLine name (Format.resolvedFilename prompt filename))
            (Format.resolvedFilename prompt filename)
            (Format.pointsSection printVector3 points ++ Format.linesSection pairs)
  /\ forall i j, In (i, j) pairs ->
                 i < List.length points /\ j < List.length points.
Proof.
  intros segments points pairs Hname Hsize Hshape.
  split; [now apply writeToFile_contents |].
  intros i j Hin. unfold points. rewrite writtenPoints_length by exact Hshape.
  unfold pairs, writtenPairs, Format.closedPairs, Format.openPairs in Hin.
  destruct (isClosed curve); apply in_map_iff in Hin as [n [Heq Hn]];
    apply in_seq in Hn; injection Heq as <- <-.
  - split; [lia |]. rewrite Nat.add_0_r. apply Nat.mod_upper_bound. lia.
  - lia.
Qed.

(** When consecutive segments share their endpoints (and, for a closed
    curve, the last segment ends where the first starts), the file is
    faithful: the [i]-th index pair names the start position and the end
    position of the [i]-th segment. *)
Theorem writeToFile_pairs_name_endpoints
        (name : string) (curve : Curve) (prompt filename : string) :
  let segments := getCurveSegments curve in
  let points := writtenPoints (isClosed curve) segments in
  let pairs := writtenPairs (isClosed curve) segments in
  Format.resolvedFilename prompt filename <> "" ->
  (N.of_nat (List.length segments) < SizeT.SIZE_MAX)%N ->
  isClosed curve = true \/ segments <> [] ->
  (forall i s t, nth_error segments i = Some s -> nth_error segments (S i) = Some t ->
                 endPosition s = startPosition t) ->
  (isClosed curve = true ->
   forall first final, nth_error segments 0 = Some first ->
                       vector_back segments = Some final ->
                       endPosition final = startPosition first) ->
  writeToFile printVector3 name curve prompt filename
  = Written (Format.consoleLine name (Format.resolvedFilename prompt filename))
            (Format.resolvedFilename prompt filename)
            (Format.pointsSection printVector3 points ++ Format.linesSection pairs)
  /\ forall i s, nth_error segments i = Some s ->
                 exists j,
                   nth_error pairs i = Some (i, j)
                   /\ nth_error points i = Some (startPosition s)
                   /\ nth_error points j = Some (endPosition s).
Proof.
  intros segments points pairs Hname Hsize Hshape Hchain Hcycle.
  split; [now apply writeToFile_contents |].
  intros i s Hi.
  assert (Hlt : i < List.length segments).
  { apply nth_error_Some. now rewrite Hi. }
  assert (Hstart : nth_error (map (@startPosition _) segments) i
                   = Some (startPosition s)).
  { now rewrite nth_error_map, Hi. }
  assert (Hseq : forall f : nat -> nat * nat,
             nth_error (map f (seq 0 (List.length segments))) i = Some (f i)).
  { intro f. rewrite nth_error_map, nth_error_seq.
    apply Nat.ltb_lt in Hlt. now rewrite Hlt. }
  assert (Hfinal : S i = List.length segments -> vector_back segments = Some s).
  { intro Hlast.
    destruct (exists_last (l := segments)) as [front [final E]].
    { intro E. rewrite E in Hlt. simpl in Hlt. lia. }
    rewrite E in Hi, Hlast |- *. rewrite length_app in Hlast. simpl in Hlast.
    rewrite nth_error_app2 in Hi by lia.
    replace (i - List.length front) with 0 in Hi by lia.
    injection Hi as ->. apply vector_back_app. }
  unfold points, pairs, writtenPoints, writtenPairs,
    Format.closedPairs, Format.openPairs.
  destruct (isClosed curve) eqn:Hclosed.
  - exists ((i + 1) mod List.length segments).
    split; [apply Hseq |]. split; [exact Hstart |].
    destruct (Nat.eq_dec (S i) (List.length segments)) as [Hlast | Hmore].
    + replace (i + 1) with (List.length segments) by lia.
      rewrite Nat.Div0.mod_same.
      destruct (nth_error segments 0) as [first|] eqn:H0.
      * rewrite nth_error_map, H0. simpl. f_equal. symmetry.
        apply (Hcycle eq_refl first s eq_refl). now apply Hfinal.
      * apply nth_error_None in H0. lia.
    + rewrite Nat.mod_small by lia. replace (i + 1) with (S i) by lia.
      destruct (nth_error segments (S i)) as [t|] eqn:Hnext.
      * rewrite nth_error_map, Hnext. simpl. f_equal. symmetry.
        now apply (Hchain i s t).
      * apply nth_error_None in Hnext. lia.
  - exists (i + 1).
    split; [apply Hseq |]. split.
    + rewrite nth_error_app1 by (now rewrite length_map). exact Hstart.
    + destruct (Nat.eq_dec (S i) (List.length segments)) as [Hlast | Hmore].
      * rewrite nth_error_app2 by (rewrite length_map; lia).
        rewrite length_map, (Hfinal Hlast).
        replace (i + 1 - List.length segments) with 0 by lia. reflexivity.
      * rewrite nth_error_app1 by (rewrite length_map; lia).
        replace (i + 1) with (S i) by lia.
        destruct (nth_error segments (S i)) as [t|] eqn:Hnext.
        -- rewrite nth_error_map, Hnext. simpl. f_equal. symmetry.
           now apply (Hchain i s t).
        -- apply nth_error_None in Hnext. lia.
Qed.

(** The loops read nothing of a segment but its start position. *)
Lemma fold_closedBody_starts (segments1 segments2 : list (CurveSegment Vector3)) :
  SizeT.size segments1 = SizeT.size segments2 ->
  forall l1 l2 st,
    map (@startPosition _) l1 = map (@startPosition _) l2 ->
    fold_left (closedBody printVector3 segments1) l1 st
    = fold_left (closedBody printVector3 segments2) l2 st.
Proof.
  intros Hsize l1.
  induction l1 as [|s1 l1 IH]; intros [|s2 l2] st Hmap; try discriminate;
    [reflexivity |].
  simpl in Hmap. injection Hmap as Hs Hmap. simpl.
  destruct st as [[out inds] i]. unfold closedBody at 2 4.
  rewrite Hs, Hsize. now apply IH.
Qed.

Lemma fold_openBody_starts (l1 : list (CurveSegment Vector3)) :
  forall l2 st,
    map (@startPosition _) l1 = map (@startPosition _) l2 ->
    fold_left (openBody printVector3) l1 st
    = fold_left (openBody printVector3) l2 st.
Proof.
  induction l1 as [|s1 l1 IH]; intros [|s2 l2] st Hmap; try discriminate;
    [reflexivity |].
  simpl in Hmap. injection Hmap as Hs Hmap. simpl.
  destruct st as [[out inds] i]. unfold openBody at 2 4.
  rewrite Hs. now apply IH.
Qed.

(** Only the start positions reach the file, and the end position of the
    last segment of a curve that is not closed: two curves that agree on
    these and on being closed give the same outcome, whatever the faces and
    the other end positions of their segments. *)
Theorem writeToFile_reads_starts_only
        (name : string) (curve1 curve2 : Curve) (prompt filename : string) :
  isClosed curve1 = isClosed curve2 ->
  map (@startPosition _) (getCurveSegments curve1)
  = map (@startPosition _) (getCurveSegments curve2) ->
  (isClosed curve1 = false ->
   option_map (@endPosition _) (vector_back (getCurveSegments curve1))
   = option_map (@endPosition _) (vector_back (getCurveSegments curve2))) ->
  writeToFile printVector3 name curve1 prompt filename
  = writeToFile printVector3 name curve2 prompt filename.
Proof.
  intros Hclosed Hstarts Hend. unfold writeToFile.
  destruct (String.eqb _ ""); [reflexivity |].
  assert (Hsize : SizeT.size (getCurveSegments curve1)
                  = SizeT.size (getCurveSegments curve2)).
  { unfold SizeT.size. f_equal. f_equal.
    rewrite <- (length_map (@startPosition _) (getCurveSegments curve1)), Hstarts.
    apply length_map. }
  rewrite <- Hclosed. destruct (isClosed curve1).
  - rewrite Hsize.
    now rewrite (fold_closedBody_starts _ _ Hsize _ (getCurveSegments curve2) _ Hstarts).
  - rewrite Hsize.
    rewrite (fold_openBody_starts _ (getCurveSegments curve2) _ Hstarts).
    specialize (Hend eq_refl).
    destruct (fold_left _ _ _) as [[out inds] i].
    destruct (vector_back (getCurveSegments curve1)),
      (vector_back (getCurveSegments curve2)); try discriminate;
      [| reflexivity].
    simpl in Hend. injection Hend as Hend. now rewrite Hend.
Qed.

(** The file dialog is consulted only for an empty file name, and its
    answer then stands for the name; nothing is written exactly when both
    are empty. *)
Theorem writeToFile_filename_resolution
        (name : string) (curve : Curve) (prompt filename : string) :
  (filename <> "" ->
   forall prompt',
     writeToFile printVector3 name curve prompt filename
     = writeToFile printVector3 name curve prompt' filename)
  /\ writeToFile printVector3 name curve prompt ""
     = writeToFile printVector3 name curve "" prompt
  /\ (writeToFile printVector3 name curve prompt filename = NothingWritten
      <-> filename = "" /\ prompt = "").
Proof.
  split; [| split].
  - intros Hname prompt'. unfold writeToFile.
    destruct (String.eqb_spec filename ""); [contradiction | reflexivity].
  - unfold writeToFile. simpl String.eqb.
    destruct (String.eqb prompt "") eqn:E; [reflexivity |].
    rewrite E. reflexivity.
  - unfold writeToFile.
    destruct (String.eqb_spec filename "") as [-> | Hf].
    + destruct (String.eqb_spec prompt "") as [-> | Hp]; [now split |].
      split; [| now intros [_ ?]].
      destruct (isClosed curve).
      * destruct (fold_left _ _ _) as [[out inds] i]. discriminate.
      * destruct (fold_left _ _ _) as [[out inds] i].
        destruct (vector_back _); discriminate.
    + destruct (String.eqb_spec filename ""); [contradiction |].
      split; [| now intros [? _]].
      destruct (isClosed curve).
      * destruct (fold_left _ _ _) as [[out inds] i]. discriminate.
      * destruct (fold_left _ _ _) as [[out inds] i].
        destruct (vector_back _); discriminate.
Qed.

End WriteToFileMore.

(** ** [userEditCallback]: what one frame can do *)

Section CallbackMore.

Context {Vector3 Curve : Type} `{API : MeshEmbeddedCurveAPI Vector3 Curve}.

Local Abbreviation World := (World Vector3 Curve).
Local Abbreviation Frame := (Frame Vector3).

Ltac frame_cases :=
  cbn;
  repeat match goal with
    | |- context [if ?b then _ else _] => destruct b; cbn
    | |- context [match ?p with (_, _) => _ end] =>
        let t := fresh "t" in destruct p as [t ?]; destruct t; cbn
    end.

Lemma processPick_calls (io : Frame) (w : World) :
  calls (processPick io w)
  = calls w ++ match pickedFace io with
               | Some fClick =>
                   if pickRequested io
                   then [Call_tryExtendBack fClick (pickedCoord io)] else []
               | None => []
               end.
Proof.
  unfold processPick, pickRequested, when, andThen, skip.
  destruct (KeyCtrl io && negb (WantCaptureMouse io) && MouseDown0 io),
    (pickedFace io); cbn; now rewrite ?app_nil_r.
Qed.

Lemma removeLastButton_calls (io : Frame) (w : World) :
  calls (removeLastButton io w)
  = calls w ++ (if clickedRemoveLast io then [Call_removeLastEndpoint] else []).
Proof.
  unfold removeLastButton, when, andThen, skip.
  destruct (clickedRemoveLast io); cbn; now rewrite ?app_nil_r.
Qed.

Lemma closeCurveButton_calls (io : Frame) (w : World) :
  calls (closeCurveButton io w)
  = calls w ++ (if clickedCloseCurve io
                then Call_isClosed
                       :: (if isClosed (curve w) then [] else [Call_closeCurve])
                else []).
Proof.
  unfold closeCurveButton, when, andThen, skip.
  destruct (clickedCloseCurve io); cbn; [| now rewrite app_nil_r].
  destruct (isClosed (curve w)); cbn; [reflexivity |].
  destruct (closeCurve (curve w)) as [[|] c]; cbn;
    now rewrite <- app_assoc.
Qed.

Lemma clearButton_calls (io : Frame) (w : World) :
  calls (clearButton io w)
  = calls w ++ (if clickedClear io then [Call_clearCurve] else []).
Proof.
  unfold clearButton, when, andThen, skip.
  destruct (clickedClear io); cbn; now rewrite ?app_nil_r.
Qed.

Lemma doneButton_calls (io : Frame) (w : World) :
  calls (doneButton io w) = calls w.
Proof. unfold doneButton, when, skip. now destruct (clickedDone io). Qed.

(** In one frame every member of the curve is called at most once and in
    the order of the source: [tryExtendBack] only for a requested pick on a
    face, then [removeLastEndpoint], then [isClosed] and, only if it
    answered false, [closeCurve], then [clearCurve]. *)
Theorem userEditCallback_call_trace (io : Frame) (w : World) :
  let afterRemove := removeLastButton io (processPick io w) in
  calls (userEditCallback io w)
  = calls w
    ++ match pickedFace io with
       | Some fClick =>
           if pickRequested io
           then [Call_tryExtendBack fClick (pickedCoord io)] else []
       | None => []
       end
    ++ (if clickedRemoveLast io then [Call_removeLastEndpoint] else [])
    ++ (if clickedCloseCurve io
        then Call_isClosed
               :: (if isClosed (curve afterRemove) then [] else [Call_closeCurve])
        else [])
    ++ (if clickedClear io then [Call_clearCurve] else []).
Proof.
  intro afterRemove. unfold userEditCallback, andThen.
  rewrite doneButton_calls, clearButton_calls, closeCurveButton_calls.
  fold afterRemove. unfold afterRemove.
  rewrite removeLastButton_calls, processPick_calls.
  now rewrite <- !app_assoc.
Qed.

(** A frame reports at most one error, and only on a click on "Close
    curve": the closed curve is refused with one message, a throwing
    [closeCurve] is reported with the other. *)
Theorem userEditCallback_errors (io : Frame) (w : World) :
  let afterRemove := removeLastButton io (processPick io w) in
  errors (userEditCallback io w)
  = errors w
    ++ (if clickedCloseCurve io
        then if isClosed (curve afterRemove)
             then ["Curve is already closed."]
             else match fst (closeCurve (curve afterRemove)) with
                  | Returned => []
                  | runtime_error =>
                      ["Error closing curve. Are both endpoints in same face?"]
                  end
        else []).
Proof.
  intro afterRemove.
  assert (Hpick : errors (processPick io w) = errors w).
  { unfold processPick, when, andThen, skip.
    now destruct (KeyCtrl io && negb (WantCaptureMouse io) && MouseDown0 io),
      (pickedFace io). }
  assert (Hremove : errors afterRemove = errors w).
  { unfold afterRemove, removeLastButton, when, andThen, skip.
    now destruct (clickedRemoveLast io). }
  unfold userEditCallback, andThen. fold afterRemove.
  rewrite <- Hremove. generalize afterRemove. intro w2.
  unfold doneButton, clearButton, closeCurveButton, when, andThen, skip.
  destruct (clickedDone io), (clickedClear io), (clickedCloseCurve io); cbn;
    rewrite ?app_nil_r; try reflexivity;
    destruct (isClosed (curve w2)); cbn; try reflexivity;
    destruct (closeCurve (curve w2)) as [[|] c]; cbn;
    now rewrite ?app_nil_r.
Qed.

(** The callback unregisters itself exactly on a click on "Done". *)
Lemma userEditCallback_focus (io : Frame) (w : World) :
  focusedPopupUI (userEditCallback io w)
  = focusedPopupUI w && negb (clickedDone io).
Proof.
  unfold userEditCallback, processPick, doneButton, clearButton,
    closeCurveButton, removeLastButton, when, andThen, skip.
  destruct (KeyCtrl io && negb (WantCaptureMouse io) && MouseDown0 io),
    (pickedFace io), (clickedRemoveLast io), (clickedCloseCurve io),
    (clickedClear io), (clickedDone io); frame_cases;
    now rewrite ?andb_true_r, ?andb_false_r.
Qed.

(** What the callback does to the curve, the errors and the calls does
    not depend on the rest of the world, the stale flag included. *)
Lemma userEditCallback_sameEdits (io : Frame) (w1 w2 : World) :
  sameEdits w1 w2 -> sameEdits (userEditCallback io w1) (userEditCallback io w2).
Proof.
  destruct w1 as [e1 c1 b1 a1 i1 f1 r1 l1], w2 as [e2 c2 b2 a2 i2 f2 r2 l2].
  unfold sameEdits. cbn. intros [-> [-> ->]].
  unfold userEditCallback, processPick, doneButton, clearButton,
    closeCurveButton, removeLastButton, when, andThen, skip.
  destruct (KeyCtrl io && negb (WantCaptureMouse io) && MouseDown0 io),
    (pickedFace io), (clickedRemoveLast io), (clickedCloseCurve io),
    (clickedClear io), (clickedDone io); frame_cases; repeat split.
Qed.

Lemma runFrames_sameEdits (frames : list Frame) :
  forall w1 w2, sameEdits w1 w2 -> sameEdits (runFrames frames w1) (runFrames frames w2).
Proof.
  induction frames as [|io frames IH]; intros w1 w2 H; [exact H |].
  apply IH. now apply userEditCallback_sameEdits.
Qed.

End CallbackMore.

(** ** [userEdit]: the modal loop as a whole *)

Section UserEditMore.

Context {Vector3 Curve : Type} `{API : MeshEmbeddedCurveAPI Vector3 Curve}.

Local Abbreviation World := (World Vector3 Curve).
Local Abbreviation Frame := (Frame Vector3).

Lemma userEditWith_decompose (iteration : Frame -> World -> World)
      (frames : list Frame) (w : World) :
  userEditWith iteration frames w
  = option_map (userEditExit w) (whileFocused iteration frames (userEditEntry w)).
Proof.
  unfold userEditWith, userEditEntry, userEditExit. cbn.
  now destruct (whileFocused _ _ _).
Qed.

Lemma whileFocused_unfocused (iteration : Frame -> World -> World)
      (frames : list Frame) (w : World) :
  focusedPopupUI w = false -> whileFocused iteration frames w = Some w.
Proof. intro H. destruct frames; simpl; now rewrite H. Qed.

(** The loop runs the iterations of the frames up to the first click on
    "Done". *)
Lemma whileFocused_runLoop (frames : list Frame) :
  forall w,
    focusedPopupUI w = true ->
    whileFocused mainLoopIteration frames w
    = if existsb (@clickedDone _) frames
      then Some (runLoop (untilDone frames) w) else None.
Proof.
  induction frames as [|io frames IH]; intros w Hfocus; simpl; rewrite Hfocus;
    [reflexivity |].
  pose proof (mainLoopIteration_focus io w) as Hnext. rewrite Hfocus in Hnext.
  destruct (clickedDone io); simpl in *.
  - now apply whileFocused_unfocused.
  - now apply IH.
Qed.

Lemma sameEdits_trans (w1 w2 w3 : World) :
  sameEdits w1 w2 -> sameEdits w2 w3 -> sameEdits w1 w3.
Proof.
  unfold sameEdits. intros [A1 [A2 A3]] [B1 [B2 B3]].
  repeat split; congruence.
Qed.

(** Drawing edits nothing. *)
Lemma drawn_sameEdits (b : bool) (w : World) : sameEdits (when b drawn w) w.
Proof.
  destruct (drawn_keeps b w) as [_ [_ [_ [_ [Hc [He Hl]]]]]]. now repeat split.
Qed.

(** While the callback is registered, an iteration of the main loop edits
    what the callback edits, whether and whenever the loop draws. *)
Lemma mainLoopIteration_sameEdits (io : Frame) (w1 w2 : World) :
  focusedPopupUI w1 = true ->
  sameEdits w1 w2 ->
  sameEdits (mainLoopIteration io w1) (userEditCallback io w2).
Proof.
  intros Hfocus Hsame. unfold mainLoopIteration.
  rewrite (proj1 (proj2 (proj2 (proj2 (drawn_keeps (drawnBefore io) w1))))), Hfocus.
  eapply sameEdits_trans; [apply drawn_sameEdits |].
  apply userEditCallback_sameEdits.
  eapply sameEdits_trans; [apply drawn_sameEdits | exact Hsame].
Qed.

Lemma runLoop_sameEdits (frames : list Frame) :
  forall w1 w2,
    focusedPopupUI w1 = true ->
    sameEdits w1 w2 ->
    sameEdits (runLoop (untilDone frames) w1) (runFrames (untilDone frames) w2).
Proof.
  induction frames as [|io frames IH]; intros w1 w2 Hfocus Hsame; [exact Hsame |].
  pose proof (mainLoopIteration_sameEdits io Hfocus Hsame) as Hstep.
  pose proof (mainLoopIteration_focus io w1) as Hnext. rewrite Hfocus in Hnext.
  simpl. destruct (clickedDone io); simpl in *; [exact Hstep |].
  now apply IH.
Qed.

(** The iterations of the main loop write neither [enabled] nor the
    globals that [userEdit] saves. *)
Lemma mainLoopIteration_globals (io : Frame) (w : World) :
  alwaysEvaluatePick (mainLoopIteration io w) = alwaysEvaluatePick w
  /\ imgui (mainLoopIteration io w) = imgui w.
Proof.
  unfold mainLoopIteration.
  destruct (drawn_keeps (drawnBefore io) w) as [_ [Hp [Hi _]]].
  destruct (drawn_keeps (drawnAfter io)
              (if focusedPopupUI (when (drawnBefore io) drawn w)
               then userEditCallback io (when (drawnBefore io) drawn w)
               else when (drawnBefore io) drawn w)) as [_ [Hp' [Hi' _]]].
  rewrite Hp', Hi'.
  destruct (focusedPopupUI _); [| now split].
  destruct (userEditCallback_globals io (when (drawnBefore io) drawn w))
    as [Hp2 Hi2].
  rewrite Hp2, Hi2. now split.
Qed.

Lemma runLoop_globals (frames : list Frame) :
  forall w,
    alwaysEvaluatePick (runLoop frames w) = alwaysEvaluatePick w
    /\ imgui (runLoop frames w) = imgui w
    /\ enabled (runLoop frames w) = enabled w.
Proof.
  induction frames as [|io frames IH]; intro w; [repeat split |].
  simpl. destruct (IH (mainLoopIteration io w)) as [Hp [Hi He]].
  destruct (mainLoopIteration_globals io w) as [Hp' Hi'].
  rewrite Hp, Hi, He. repeat split; try assumption.
  apply mainLoopIteration_enabled.
Qed.

Lemma userEditEntry_focused (w : World) : focusedPopupUI (userEditEntry w) = true.
Proof. reflexivity. Qed.

(** [userEdit], in closed form. *)
Lemma userEdit_closed_form (frames : list Frame) (w : World) :
  userEdit frames w
  = if existsb (@clickedDone _) frames
    then Some (userEditExit w (runLoop (untilDone frames) (userEditEntry w)))
    else None.
Proof.
  unfold userEdit. rewrite userEditWith_decompose.
  rewrite whileFocused_runLoop by apply userEditEntry_focused.
  now destruct (existsb _ frames).
Qed.

Lemma untilDone_app (frames extra : list Frame) :
  existsb (@clickedDone _) frames = true ->
  untilDone (frames ++ extra) = untilDone frames.
Proof.
  induction frames as [|io frames IH]; intro H; [discriminate |].
  simpl in *. destruct (clickedDone io); [reflexivity |].
  now rewrite IH.
Qed.

(** [userEdit] returns exactly when some frame clicks "Done": without such
    a frame the loop is still running when the frames run out.  The frames
    after the first click on "Done" are never looked at. *)
Theorem userEdit_returns_iff_done (frames : list Frame) (w : World) :
  (userEdit frames w = None <-> existsb (@clickedDone _) frames = false)
  /\ (forall extra,
         existsb (@clickedDone _) frames = true ->
         userEdit (frames ++ extra) w = userEdit frames w).
Proof.
  split.
  - rewrite userEdit_closed_form.
    destruct (existsb _ frames); split; intro H; (discriminate || reflexivity).
  - intros extra Hdone. rewrite !userEdit_closed_form.
    rewrite existsb_app, Hdone, untilDone_app by exact Hdone. reflexivity.
Qed.

(** [userEdit] edits the curve only through the callback: whether and
    whenever the main loop draws, the curve, the errors and the calls it
    leaves are those of running the callback on each frame up to the first
    click on "Done". *)
Theorem userEdit_runs_callbacks (frames : list Frame) (w w' : World) :
  userEdit frames w = Some w' ->
  sameEdits w' (runFrames (untilDone frames) w).
Proof.
  rewrite userEdit_closed_form.
  destruct (existsb _ frames); [| discriminate].
  intro H. injection H as <-.
  apply sameEdits_trans with (runLoop (untilDone frames) (userEditEntry w)).
  - repeat split.
  - apply runLoop_sameEdits; [apply userEditEntry_focused | repeat split].
Qed.

Lemma runFrames_globals (frames : list Frame) :
  forall w,
    alwaysEvaluatePick (runFrames frames w) = alwaysEvaluatePick w
    /\ imgui (runFrames frames w) = imgui w
    /\ enabled (runFrames frames w) = enabled w.
Proof.
  induction frames as [|io frames IH]; intro w; [repeat split |].
  simpl. destruct (IH (userEditCallback io w)) as [Hp [Hi He]].
  destruct (userEditCallback_globals io w) as [Hp' Hi'].
  rewrite Hp, Hi, He. repeat split; try assumption.
  apply userEditCallback_enabled.
Qed.

Lemma fresh_not_live (s : ImGui.State) :
  filter (fun x => negb (Nat.eqb x (ImGui.fresh s))) (ImGui.live s) = ImGui.live s.
Proof.
  assert (Hbound : Forall (fun x => x < ImGui.fresh s) (ImGui.live s)).
  { unfold ImGui.fresh.
    assert (H : Forall (fun k => k <= list_max (ImGui.live s)) (ImGui.live s))
      by now apply list_max_le.
    apply Forall_impl with (2 := H). intros x Hx.
    destruct (ImGui.current s); simpl; lia. }
  induction (ImGui.live s) as [|x l IH]; [reflexivity |].
  inversion Hbound as [|? ? Hx Hl]. subst. simpl.
  destruct (Nat.eqb_spec x (ImGui.fresh s)); [lia |]. simpl.
  now rewrite IH.
Qed.

(** A call of [userEdit] that returns leaves ImGui as it found it: the
    context it created is destroyed, and the contexts alive and the current
    context are those of before the call. *)
Theorem userEdit_no_context_left (frames : list Frame) (w w' : World) :
  userEdit frames w = Some w' -> imgui w' = imgui w.
Proof.
  rewrite userEdit_closed_form.
  destruct (existsb _ frames); [| discriminate].
  intro H. injection H as <-.
  destruct (runLoop_globals (untilDone frames) (userEditEntry w)) as [_ [Hi _]].
  revert Hi. generalize (runLoop (untilDone frames) (userEditEntry w)).
  intros w1 Hi. unfold userEditExit. cbn. rewrite Hi. cbn.
  unfold ImGui.DestroyContext, ImGui.SetCurrentContext, ImGui.GetCurrentContext.
  cbn [ImGui.current ImGui.live].
  rewrite fresh_not_current. cbn [filter]. rewrite Nat.eqb_refl.
  cbn [negb]. rewrite fresh_not_live. now destruct (imgui w).
Qed.

Lemma worldsSeen_invariant (P : World -> Prop) :
  (forall io w, focusedPopupUI w = true -> P w -> P (mainLoopIteration io w)) ->
  forall frames w w1,
    P w -> In w1 (worldsSeen mainLoopIteration frames w) ->
    P w1 /\ focusedPopupUI w1 = true.
Proof.
  intros Hstep frames.
  induction frames as [|io frames IH]; intros w w1 HP Hin; simpl in Hin;
    destruct (focusedPopupUI w) eqn:Hfocus; try contradiction.
  destruct Hin as [<- | Hin]; [now split |].
  apply (IH (mainLoopIteration io w)); [now apply Hstep | exact Hin].
Qed.

Lemma worldsSeen_length (frames : list Frame) :
  forall w,
    focusedPopupUI w = true ->
    List.length (worldsSeen mainLoopIteration frames w)
    = List.length (untilDone frames).
Proof.
  induction frames as [|io frames IH]; intros w Hfocus; simpl; rewrite Hfocus;
    [reflexivity |].
  assert (Hnext : focusedPopupUI (mainLoopIteration io w) = negb (clickedDone io)).
  { now rewrite mainLoopIteration_focus, Hfocus. }
  destruct (clickedDone io); simpl in *.
  - destruct frames; simpl; now rewrite Hnext.
  - now rewrite IH.
Qed.

(** Every iteration of the loop of [userEdit] starts with the quantity
    enabled, picking always evaluated and the context created on entry
    current; there is one iteration per frame up to the first click on
    "Done". *)
Theorem userEdit_loop_conditions (frames : list Frame) (w w1 : World) :
  In w1 (worldsSeen mainLoopIteration frames (userEditEntry w)) ->
  (enabled w1 = true
   /\ alwaysEvaluatePick w1 = true
   /\ ImGui.current (imgui w1) = Some (ImGui.fresh (imgui w))
   /\ ImGui.current (imgui w1) <> ImGui.current (imgui w)
   /\ focusedPopupUI w1 = true)
  /\ List.length (worldsSeen mainLoopIteration frames (userEditEntry w))
     = List.length (untilDone frames).
Proof.
  intro Hin. split; [| now apply worldsSeen_length].
  pose (P := fun w1 : World =>
               enabled w1 = true /\ alwaysEvaluatePick w1 = true
               /\ ImGui.current (imgui w1) = Some (ImGui.fresh (imgui w))).
  destruct (worldsSeen_invariant P) with (3 := Hin) as [[He [Hp Hc]] Hf].
  - intros io w2 Hfocus [He [Hp Hc]]. unfold P.
    rewrite mainLoopIteration_enabled.
    destruct (mainLoopIteration_globals io w2) as [Hp' Hi'].
    now rewrite Hp', Hi'.
  - repeat split.
  - repeat split; try assumption.
    rewrite Hc. intro Heq. pose proof (fresh_not_current (imgui w)) as Hfresh.
    rewrite <- Heq in Hfresh. simpl in Hfresh.
    now rewrite Nat.eqb_refl in Hfresh.
Qed.

End UserEditMore.

(** ** [fillBuffers] and [draw]: what is drawn *)

Section DrawingMore.

Context {Vector3 Curve : Type} `{API : MeshEmbeddedCurveAPI Vector3 Curve}.
Variables Mat4 Float Color : Type.
Variable fmul : Float -> Float -> Float.
Variable five : Float.

Local Abbreviation World := (World Vector3 Curve).
Local Abbreviation Frame := (Frame Vector3).
Local Abbreviation Display := (Display Vector3 Curve Mat4 Float Color).
Local Abbreviation View := (View Vector3 Mat4 Float).

Lemma fold_fillBody (l : list (CurveSegment Vector3)) :
  forall pTail pTip,
    fold_left (@fillBody Vector3) l (pTail, pTip)
    = (pTail ++ map (@startPosition _) l, pTip ++ map (@endPosition _) l).
Proof.
  induction l as [|c l IH]; intros pTail pTip; simpl.
  - now rewrite !app_nil_r.
  - now rewrite IH, <- !app_assoc.
Qed.

Lemma fillBuffers_result (d : Display) :
  fillBuffers d
  = mkDisplay (set_bufferStale false (world d)) (radiusParam d) (curveColor d)
              (mkProgram (uniforms (program d))
                 (map (@startPosition _) (getCurveSegments (curve (world d))))
                 (map (@endPosition _) (getCurveSegments (curve (world d))))
                 (drawCalls (program d))).
Proof. unfold fillBuffers. now rewrite fold_fillBody. Qed.

(** What [draw] leaves on an enabled quantity whose buffers are up to date
    or marked stale. *)
Lemma draw_enabled (v : View) (d : Display) :
  enabled (world d) = true ->
  buffersCurrent d ->
  a_position_tail (program (draw fmul five v d))
  = map (@startPosition _) (getCurveSegments (curve (world d)))
  /\ a_position_tip (program (draw fmul five v d))
     = map (@endPosition _) (getCurveSegments (curve (world d)))
  /\ bufferStale (world (draw fmul five v d)) = false
  /\ curve (world (draw fmul five v d)) = curve (world d)
  /\ drawCalls (program (draw fmul five v d)) = S (drawCalls (program d)).
Proof.
  intros Hon Hcurrent. unfold draw. rewrite Hon. cbn [negb].
  destruct (bufferStale (world d)) eqn:Hstale.
  - rewrite fillBuffers_result. cbn. repeat split.
  - destruct (Hcurrent Hstale) as [Htail Htip]. cbn.
    rewrite Htail, Htip. repeat split. exact Hstale.
Qed.

(** On the fields of the quantity, [draw] does what [drawn] says: it
    clears the stale flag of an enabled quantity and nothing else. *)
Lemma draw_world (v : View) (d : Display) :
  world (draw fmul five v d) = drawn (world d).
Proof.
  unfold draw, drawn. destruct (enabled (world d)); cbn [negb andb];
    [| reflexivity].
  destruct (bufferStale (world d)) eqn:Hstale.
  - now rewrite fillBuffers_result.
  - cbn. now destruct (world d).
Qed.

(** [draw] does nothing at all on a disabled quantity.  On an enabled one
    whose buffers are up to date or marked stale, it issues one draw, and
    what it draws is the curve: the two attributes hold the start and the
    end positions of the segments, one pair per segment, and the buffers
    are no longer stale. *)
Theorem draw_shows_curve (v : View) (d : Display) :
  (enabled (world d) = false -> draw fmul five v d = d)
  /\ (enabled (world d) = true ->
      buffersCurrent d ->
      let d' := draw fmul five v d in
      let segments := getCurveSegments (curve (world d)) in
      a_position_tail (program d') = map (@startPosition _) segments
      /\ a_position_tip (program d') = map (@endPosition _) segments
      /\ List.length (a_position_tail (program d')) = List.length segments
      /\ List.length (a_position_tip (program d')) = List.length segments
      /\ bufferStale (world d') = false
      /\ curve (world d') = curve (world d)
      /\ drawCalls (program d') = S (drawCalls (program d))).
Proof.
  split.
  - intro Hoff. unfold draw. now rewrite Hoff.
  - intros Hon Hcurrent d' segments.
    destruct (draw_enabled v Hon Hcurrent) as [Htail [Htip [Hs [Hc Hd]]]].
    unfold d'. fold segments in Htail, Htip.
    rewrite Htail, Htip, !length_map. repeat split; assumption.
Qed.

(** The blocks of the callback and the stale flag: a frame that leaves the
    flag down found it down and left the segments as they were. *)
Lemma processPick_keeps (io : Frame) (w : World) :
  bufferStale (processPick io w) = false ->
  bufferStale w = false /\ curve (processPick io w) = curve w.
Proof.
  unfold processPick, when, andThen, skip.
  destruct (KeyCtrl io && negb (WantCaptureMouse io) && MouseDown0 io),
    (pickedFace io); cbn; intro H; (discriminate || now split).
Qed.

Lemma removeLastButton_keeps (io : Frame) (w : World) :
  bufferStale (removeLastButton io w) = false ->
  bufferStale w = false /\ curve (removeLastButton io w) = curve w.
Proof.
  unfold removeLastButton, when, andThen, skip.
  destruct (clickedRemoveLast io); cbn; intro H; (discriminate || now split).
Qed.

Lemma clearButton_keeps (io : Frame) (w : World) :
  bufferStale (clearButton io w) = false ->
  bufferStale w = false /\ curve (clearButton io w) = curve w.
Proof.
  unfold clearButton, when, andThen, skip.
  destruct (clickedClear io); cbn; intro H; (discriminate || now split).
Qed.

Lemma doneButton_keeps (io : Frame) (w : World) :
  bufferStale (doneButton io w) = bufferStale w
  /\ curve (doneButton io w) = curve w.
Proof. unfold doneButton, when, skip. now destruct (clickedDone io). Qed.

Section ThrowingClose.

(** A [closeCurve] that throws leaves the segments as they were. *)
Hypothesis closeCurve_throw_keeps :
  forall c c' : Curve,
    closeCurve c = (runtime_error, c') ->
    getCurveSegments c' = getCurveSegments c.

Lemma closeCurveButton_keeps (io : Frame) (w : World) :
  bufferStale (closeCurveButton io w) = false ->
  bufferStale w = false
  /\ getCurveSegments (curve (closeCurveButton io w)) = getCurveSegments (curve w).
Proof.
  unfold closeCurveButton, when, andThen, skip.
  destruct (clickedCloseCurve io); cbn; [| now split].
  destruct (isClosed (curve w)); cbn; [now split |].
  destruct (closeCurve (curve w)) as [[|] c] eqn:Hclose; cbn; intro H;
    [discriminate |].
  split; [exact H |]. now apply closeCurve_throw_keeps.
Qed.

Lemma userEditCallback_keeps (io : Frame) (w : World) :
  bufferStale (userEditCallback io w) = false ->
  bufferStale w = false
  /\ getCurveSegments (curve (userEditCallback io w)) = getCurveSegments (curve w).
Proof.
  unfold userEditCallback, andThen. intro H.
  destruct (doneButton_keeps io
              (clearButton io (closeCurveButton io
                 (removeLastButton io (processPick io w))))) as [Hd1 Hd2].
  rewrite Hd1 in H. rewrite Hd2.
  apply clearButton_keeps in H as [H Hc]. rewrite Hc.
  apply closeCurveButton_keeps in H as [H Hs]. rewrite Hs.
  apply removeLastButton_keeps in H as [H Hr]. rewrite Hr.
  apply processPick_keeps in H as [H Hp]. now rewrite Hp.
Qed.

Lemma runFrames_keeps (frames : list Frame) :
  forall w,
    bufferStale (runFrames frames w) = false ->
    bufferStale w = false
    /\ getCurveSegments (curve (runFrames frames w)) = getCurveSegments (curve w).
Proof.
  induction frames as [|io frames IH]; intros w H; [now split |].
  simpl in *. apply IH in H as [H Hs].
  apply userEditCallback_keeps in H as [H Hs']. split; [exact H | congruence].
Qed.

(** Whatever the frames of an editing session did, the next [draw] of the
    enabled quantity shows the curve as edited: the callback marks the
    buffers stale whenever it changed the segments. *)
Theorem edits_then_draw_shows_curve (v : View) (frames : list Frame) (d : Display) :
  buffersCurrent d ->
  let edited := onWorld (runFrames frames) d in
  let segments := getCurveSegments (curve (world edited)) in
  buffersCurrent edited
  /\ (enabled (world d) = true ->
      a_position_tail (program (draw fmul five v edited))
      = map (@startPosition _) segments
      /\ a_position_tip (program (draw fmul five v edited))
         = map (@endPosition _) segments).
Proof.
  intros Hcurrent edited segments.
  assert (Hedited : buffersCurrent edited).
  { unfold buffersCurrent, edited. cbn. intro Hstale.
    apply runFrames_keeps in Hstale as [Hstale Hsegs].
    rewrite Hsegs. now apply Hcurrent. }
  split; [exact Hedited |].
  intro Hon.
  assert (Hon' : enabled (world edited) = true).
  { unfold edited. cbn.
    destruct (runFrames_globals frames (world d)) as [_ [_ He]]. now rewrite He. }
  destruct (draw_enabled v Hon' Hedited) as [Htail [Htip _]].
  now split.
Qed.

End ThrowingClose.

(** After [setCurve] the next [draw] of the enabled quantity shows the
    curve that was set, whatever the buffers held before. *)
Theorem setCurve_then_draw (copyBack : Curve -> Curve) (newCurve : Curve)
        (v : View) (d : Display) :
  enabled (world d) = true ->
  let d' := draw fmul five v (onWorld (setCurve copyBack newCurve) d) in
  curve (world d') = copyBack newCurve
  /\ a_position_tail (program d')
     = map (@startPosition _) (getCurveSegments (copyBack newCurve))
  /\ a_position_tip (program d')
     = map (@endPosition _) (getCurveSegments (copyBack newCurve))
  /\ bufferStale (world d') = false.
Proof.
  intros Hon d'. unfold d', draw. cbn. rewrite Hon. cbn.
  rewrite fillBuffers_result. cbn. repeat split.
Qed.

End DrawingMore.

(** ** Instances of the further properties *)

(** The editor's [closeCurve] leaves the curve as it was when it fails. *)
Lemma Editor_closeCurve_throw_keeps {Vector3 : Type}
      (g : Editor.MeshGeometry Vector3) (c c' : Editor.MeshEmbeddedCurve Vector3) :
  @closeCurve _ _ (Editor.api g) c = (runtime_error, c') ->
  @getCurveSegments _ _ (Editor.api g) c' = @getCurveSegments _ _ (Editor.api g) c.
Proof.
cbn. unfold Editor.closeCurve.
destruct (Editor.isClosed c); [intro H; congruence |].
destruct (Editor.getCurveSegments c) as [|s l] eqn:E; [intro H; congruence |].
destruct (Editor.firstStartFace c) as [startFace|]; [| intro H; congruence].
destruct (Editor.lastEndFace c) as [endFace|]; [| intro H; congruence].
destruct (Nat.eqb _ _); [discriminate | intro H; congruence].
Qed.

Lemma writeToFile_indices_in_range_witness :
  In (2, 0) (writtenPairs true [Sample.s01; Sample.s12; Sample.s20])
  /\ 2 < 3 /\ 0 < 3.
Proof.
split; [right; right; left; reflexivity |].
exact (proj2 (writeToFile_indices_in_range (API := Sample.api)
                Sample.printVector3 "loop" Sample.closedTriangle "" "loop.txt"
                ltac:(discriminate) ltac:(reflexivity) (or_introl eq_refl))
             2 0 (or_intror (or_intror (or_introl eq_refl)))).
Defined.

Lemma writeToFile_pairs_name_endpoints_witness :
  exists j,
    nth_error [(0, 1); (1, 2); (2, 0)] 2 = Some (2, j)
    /\ nth_error [Sample.p0; Sample.p1; Sample.p2] 2 = Some Sample.p2
    /\ nth_error [Sample.p0; Sample.p1; Sample.p2] j = Some Sample.p0.
Proof.
refine (proj2 (writeToFile_pairs_name_endpoints (API := Sample.api)
                 Sample.printVector3 "loop" Sample.closedTriangle "" "loop.txt"
                 ltac:(discriminate) ltac:(reflexivity) (or_introl eq_refl) _ _)
              2 Sample.s20 eq_refl).
- intros [|[|[|i]]] s t Hs Ht; cbn in Hs, Ht;
    try (destruct i; discriminate); try discriminate;
    injection Hs as <-; injection Ht as <-; reflexivity.
- intros _ first final Hfirst Hfinal. cbn in Hfirst, Hfinal.
  injection Hfirst as <-. injection Hfinal as <-. reflexivity.
Defined.

Lemma writeToFile_reads_starts_only_witness :
  writeToFile (API := Sample.api) Sample.printVector3
              "loop" Sample.closedTriangle "" "loop.txt"
  = writeToFile (API := Sample.api) Sample.printVector3
                "loop" Sample.scrambledTriangle "" "loop.txt".
Proof.
apply (writeToFile_reads_starts_only (API := Sample.api)); try reflexivity.
discriminate.
Defined.

Lemma writeToFile_filename_resolution_witness :
  writeToFile (API := Sample.api) Sample.printVector3
              "path" Sample.openTwo "other.txt" "path.txt"
  = writeToFile (API := Sample.api) Sample.printVector3
                "path" Sample.openTwo "" "path.txt"
  /\ (writeToFile (API := Sample.api) Sample.printVector3
                  "path" Sample.openTwo "" "" = NothingWritten).
Proof.
split.
- apply (proj1 (writeToFile_filename_resolution (API := Sample.api)
                  Sample.printVector3 "path" Sample.openTwo "other.txt" "path.txt")).
  discriminate.
- apply (proj2 (proj2 (writeToFile_filename_resolution (API := Sample.api)
                         Sample.printVector3 "path" Sample.openTwo "" ""))).
  now split.
Defined.

Lemma userEdit_returns_iff_done_witness :
  userEdit (API := Sample.api) [Sample.idle; Sample.pressClear]
           (Sample.world Sample.openTwo) = None
  /\ userEdit (API := Sample.api) ([Sample.pressDone] ++ [Sample.pressClear])
              (Sample.world Sample.openTwo)
     = userEdit (API := Sample.api) [Sample.pressDone] (Sample.world Sample.openTwo).
Proof.
split.
- apply (proj1 (userEdit_returns_iff_done (API := Sample.api)
                  [Sample.idle; Sample.pressClear] (Sample.world Sample.openTwo))).
  reflexivity.
- apply (proj2 (userEdit_returns_iff_done (API := Sample.api)
                  [Sample.pressDone] (Sample.world Sample.openTwo))).
  reflexivity.
Defined.

Lemma userEdit_runs_callbacks_witness :
  exists w',
    userEdit (API := Sample.api)
             [Sample.click (Some 0) Sample.p0; Sample.pressDone; Sample.pressClear]
             (Sample.world Editor.emptyCurve) = Some w'
    /\ curve w' = Sample.anchored.
Proof.
destruct (userEdit (API := Sample.api)
            [Sample.click (Some 0) Sample.p0; Sample.pressDone; Sample.pressClear]
            (Sample.world Editor.emptyCurve)) as [w'|] eqn:E;
  [| vm_compute in E; discriminate].
exists w'. split; [reflexivity |].
exact (proj1 (userEdit_runs_callbacks (API := Sample.api) _ _ E)).
Defined.

(** The stale flag is not among what [userEdit] is said to leave as the
    callbacks alone would: a loop that draws after the click has cleared
    it, a loop that does not draw has not. *)
Example userEdit_stale_flag :
  let frames drawing :=
    [mkFrame true false true (Some 0) Sample.p0 false false false false
             false drawing;
     mkFrame false true false None Sample.p0 false false false true
             false drawing] in
  option_map (@bufferStale _ _)
             (userEdit (API := Sample.api) (frames true)
                       (Sample.world Editor.emptyCurve)) = Some false
  /\ option_map (@bufferStale _ _)
                (userEdit (API := Sample.api) (frames false)
                          (Sample.world Editor.emptyCurve)) = Some true
  /\ option_map (@curve _ _)
                (userEdit (API := Sample.api) (frames true)
                          (Sample.world Editor.emptyCurve))
     = option_map (@curve _ _)
                  (userEdit (API := Sample.api) (frames false)
                            (Sample.world Editor.emptyCurve)).
Proof. vm_compute. repeat split. Qed.

Lemma userEdit_no_context_left_witness :
  exists w',
    userEdit (API := Sample.api) [Sample.pressDone] (Sample.world Sample.openTwo)
    = Some w'
    /\ imgui w' = ImGui.mkState (Some 7) [7].
Proof.
destruct (userEdit (API := Sample.api) [Sample.pressDone]
            (Sample.world Sample.openTwo)) as [w'|] eqn:E;
  [| vm_compute in E; discriminate].
exists w'. split; [reflexivity |].
exact (userEdit_no_context_left (API := Sample.api) _ _ E).
Defined.

Lemma userEdit_loop_conditions_witness :
  let entry := userEditEntry (Sample.world Sample.openTwo) in
  (enabled entry = true
   /\ alwaysEvaluatePick entry = true
   /\ ImGui.current (imgui entry) = Some 8)
  /\ List.length (worldsSeen (mainLoopIteration (API := Sample.api))
                             [Sample.idle; Sample.pressDone; Sample.idle] entry) = 2.
Proof.
intro entry.
destruct (userEdit_loop_conditions (API := Sample.api)
            [Sample.idle; Sample.pressDone; Sample.idle]
            (Sample.world Sample.openTwo) entry (or_introl eq_refl))
  as [[He [Hp [Hc _]]] Hlen].
split; [| exact Hlen].
split; [exact He |]. split; [exact Hp | exact Hc].
Defined.

Lemma draw_shows_curve_witness :
  draw (API := Sample.api) Nat.mul 5 Sample.view (Sample.display false Sample.closedTriangle)
  = Sample.display false Sample.closedTriangle
  /\ a_position_tail
       (program (draw (API := Sample.api) Nat.mul 5 Sample.view (Sample.display true Sample.closedTriangle)))
     = [Sample.p0; Sample.p1; Sample.p2]
  /\ a_position_tip
       (program (draw (API := Sample.api) Nat.mul 5 Sample.view (Sample.display true Sample.closedTriangle)))
     = [Sample.p1; Sample.p2; Sample.p0].
Proof.
split.
- exact (proj1 (draw_shows_curve (API := Sample.api) Nat.mul 5 Sample.view
                  (Sample.display false Sample.closedTriangle)) eq_refl).
- destruct (proj2 (draw_shows_curve (API := Sample.api) Nat.mul 5 Sample.view
                     (Sample.display true Sample.closedTriangle))
                  eq_refl ltac:(intro H; discriminate H))
    as [Htail [Htip _]].
  split; [exact Htail | exact Htip].
Defined.

Lemma edits_then_draw_shows_curve_witness :
  let edited :=
    onWorld (runFrames (API := Sample.api)
               [Sample.click (Some 0) Sample.p0; Sample.pressDone])
            (Sample.display true Sample.openTwo) in
  a_position_tail (program (draw (API := Sample.api) Nat.mul 5 Sample.view edited))
  = [Sample.p0; Sample.p1; Sample.p2]
  /\ a_position_tip (program (draw (API := Sample.api) Nat.mul 5 Sample.view edited))
     = [Sample.p1; Sample.p2; Sample.p0].
Proof.
intro edited.
exact (proj2 (edits_then_draw_shows_curve (API := Sample.api) Nat.mul 5
                (Editor_closeCurve_throw_keeps Sample.mesh)
                Sample.view
                [Sample.click (Some 0) Sample.p0; Sample.pressDone]
                (d := Sample.display true Sample.openTwo)
                ltac:(intro H; discriminate H))
             eq_refl).
Defined.

Lemma setCurve_then_draw_witness :
  a_position_tail
    (program (draw (API := Sample.api) Nat.mul 5 Sample.view
                (onWorld (setCurve (fun c => c) Sample.closedTriangle)
                         (Sample.display true Editor.emptyCurve))))
  = [Sample.p0; Sample.p1; Sample.p2].
Proof.
exact (proj1 (proj2 (setCurve_then_draw (API := Sample.api) Nat.mul 5
                       (fun c => c) Sample.closedTriangle Sample.view
                       (Sample.display true Editor.emptyCurve) eq_refl))).
Defined.
